(** * Student-portal signup form: the validation layer of [validation.js]

    A shallow embedding of the script: JavaScript strings as sequences of
    UTF-16 code units, the two regular expressions of the script as terms of
    a small regex type run by a derivative matcher, the DOM elements the
    script binds as a store of elements addressed by node, and every function
    of the script as a computation in a state monad over that store. *)

From Stdlib Require Import NArith Ascii String.
From stdpp Require Import base list gmap sets strings.

Local Open Scope N_scope.

(** ** JavaScript strings *)

Module JS.

(** A string value is the sequence of its UTF-16 code units; [length] is the
    JavaScript [.length]. *)
Abbreviation code_unit := N (only parsing).
Abbreviation jsstring := (list N) (only parsing).

(** A string literal of the script (all of them are ASCII). *)
Definition lit (s : string) : jsstring :=
  List.map N_of_ascii (list_ascii_of_string s).

(** [!s] for a string [s]: only the empty string is falsy. *)
Definition not_ (s : jsstring) : bool :=
  match s with [] => true | _ :: _ => false end.

(** A string used as a condition. *)
Definition truthy (s : jsstring) : bool := negb (not_ s).

(** ECMAScript WhiteSpace and LineTerminator code points: what [trim] strips
    and what [\s] matches. *)
Definition is_white_space (c : code_unit) : bool :=
  (9 <=? c) && (c <=? 13)
  || (c =? 32) || (c =? 160) || (c =? 5760)
  || (8192 <=? c) && (c <=? 8202)
  || (c =? 8232) || (c =? 8233) || (c =? 8239) || (c =? 8287)
  || (c =? 12288) || (c =? 65279).

(** [\d]: the ASCII digits. *)
Definition is_digit (c : code_unit) : bool := (48 <=? c) && (c <=? 57).

Fixpoint trimStart (s : jsstring) : jsstring :=
  match s with
  | [] => []
  | c :: s' => if is_white_space c then trimStart s' else s
  end.

Definition trimEnd (s : jsstring) : jsstring :=
  reverse (trimStart (reverse s)).

(** [s.trim()] *)
Definition trim (s : jsstring) : jsstring := trimEnd (trimStart s).

Fixpoint startsWith (s t : jsstring) {struct t} : bool :=
  match t, s with
  | [], _ => true
  | _ :: _, [] => false
  | b :: t', a :: s' => (a =? b) && startsWith s' t'
  end.

(** [s.includes(t)]: [t] occurs in [s] at some position. *)
Fixpoint includes (s t : jsstring) : bool :=
  startsWith s t ||
  match s with
  | [] => false
  | _ :: s' => includes s' t
  end.

(** *** Regular expressions

    Both patterns of the script have the shape [^r$] and carry no flag, so
    [test] succeeds exactly when the whole string matches [r]. *)
Inductive regex : Type :=
| Never
| Empty
| Class (p : code_unit -> bool)
| Seq (r1 r2 : regex)
| Alt (r1 r2 : regex)
| Star (r : regex).

Definition Plus (r : regex) : regex := Seq r (Star r).
Definition Chr (c : code_unit) : regex := Class (N.eqb c).

Fixpoint nullable (r : regex) : bool :=
  match r with
  | Never => false
  | Empty => true
  | Class _ => false
  | Seq r1 r2 => nullable r1 && nullable r2
  | Alt r1 r2 => nullable r1 || nullable r2
  | Star _ => true
  end.

Fixpoint deriv (c : code_unit) (r : regex) : regex :=
  match r with
  | Never => Never
  | Empty => Never
  | Class p => if p c then Empty else Never
  | Seq r1 r2 =>
      if nullable r1 then Alt (Seq (deriv c r1) r2) (deriv c r2)
      else Seq (deriv c r1) r2
  | Alt r1 r2 => Alt (deriv c r1) (deriv c r2)
  | Star r1 => Seq (deriv c r1) (Star r1)
  end.

(** [/^r$/.test(s)] *)
Fixpoint test (r : regex) (s : jsstring) : bool :=
  match s with
  | [] => nullable r
  | c :: s' => test (deriv c r) s'
  end.

(** The words a regex denotes. *)
Inductive lang : regex -> jsstring -> Prop :=
| lang_empty : lang Empty []
| lang_class p c : p c = true -> lang (Class p) [c]
| lang_seq r1 r2 s1 s2 : lang r1 s1 -> lang r2 s2 -> lang (Seq r1 r2) (s1 ++ s2)
| lang_alt_l r1 r2 s : lang r1 s -> lang (Alt r1 r2) s
| lang_alt_r r1 r2 s : lang r2 s -> lang (Alt r1 r2) s
| lang_star_nil r : lang (Star r) []
| lang_star_app r s1 s2 : lang r s1 -> lang (Star r) s2 -> lang (Star r) (s1 ++ s2).

End JS.

Import JS.

(** ** The document

    The script binds eleven elements by id at load time and reaches five more
    through [parentElement]. *)

Module DOM.

(** The five fields of the form. *)
Inductive field : Set := FullName | Email | Password | ConfirmPassword | Phone.

(** The elements the script touches. *)
Inductive node : Set :=
| Input (f : field)
| Group (f : field)
| ErrorSlot (f : field)
| SuccessMessage.

#[global] Instance field_eq_dec : EqDecision field.
Proof. solve_decision. Defined.

#[global] Instance node_eq_dec : EqDecision node.
Proof. solve_decision. Defined.

(** What the script reads and writes of an element: [value] (of an input),
    [textContent] (of an error slot) and the token set of [classList]. *)
Record Element : Type := mkElement {
  value : jsstring;
  textContent : jsstring;
  classList : gset string
}.

Definition with_value (v : jsstring) (e : Element) : Element :=
  {| value := v; textContent := textContent e; classList := classList e |}.
Definition with_textContent (t : jsstring) (e : Element) : Element :=
  {| value := value e; textContent := t; classList := classList e |}.
Definition with_classList (c : gset string) (e : Element) : Element :=
  {| value := value e; textContent := textContent e; classList := c |}.

(** One component per field. *)
Record fields (A : Type) : Type := Fields {
  at_fullName : A;
  at_email : A;
  at_password : A;
  at_confirmPassword : A;
  at_phone : A
}.
Arguments Fields {A}.
Arguments at_fullName {A}.
Arguments at_email {A}.
Arguments at_password {A}.
Arguments at_confirmPassword {A}.
Arguments at_phone {A}.

Definition at_field {A} (f : field) (v : fields A) : A :=
  match f with
  | FullName => at_fullName v
  | Email => at_email v
  | Password => at_password v
  | ConfirmPassword => at_confirmPassword v
  | Phone => at_phone v
  end.

Definition set_field {A} (f : field) (a : A) (v : fields A) : fields A :=
  match f with
  | FullName => Fields a (at_email v) (at_password v) (at_confirmPassword v) (at_phone v)
  | Email => Fields (at_fullName v) a (at_password v) (at_confirmPassword v) (at_phone v)
  | Password => Fields (at_fullName v) (at_email v) a (at_confirmPassword v) (at_phone v)
  | ConfirmPassword => Fields (at_fullName v) (at_email v) (at_password v) a (at_phone v)
  | Phone => Fields (at_fullName v) (at_email v) (at_password v) (at_confirmPassword v) a
  end.

(** The two callbacks the script hands to [setTimeout]. *)
Inductive callback : Set := HideSuccessMessage | ResetFormLater.

(** Modelled from the spec: signup.html, the host document, is not among the
    sources.  Following the spec's section 6 and glossary, every id the
    script looks up exists, and every field has an input, an error slot and a
    container of its own (the input's [parentElement]); the sixteen elements
    are pairwise distinct.  [timers] holds the pending [setTimeout] calls with
    their delays in milliseconds, oldest first. *)
Record Window : Type := mkWindow {
  inputs : fields Element;
  groups : fields Element;
  errorSlots : fields Element;
  successBanner : Element;
  timers : list (callback * N)
}.

Definition element (n : node) (d : Window) : Element :=
  match n with
  | Input f => at_field f (inputs d)
  | Group f => at_field f (groups d)
  | ErrorSlot f => at_field f (errorSlots d)
  | SuccessMessage => successBanner d
  end.

Definition store (n : node) (e : Element) (d : Window) : Window :=
  match n with
  | Input f =>
      mkWindow (set_field f e (inputs d)) (groups d) (errorSlots d) (successBanner d) (timers d)
  | Group f =>
      mkWindow (inputs d) (set_field f e (groups d)) (errorSlots d) (successBanner d) (timers d)
  | ErrorSlot f =>
      mkWindow (inputs d) (groups d) (set_field f e (errorSlots d)) (successBanner d) (timers d)
  | SuccessMessage =>
      mkWindow (inputs d) (groups d) (errorSlots d) e (timers d)
  end.

(** [input.parentElement]; the script takes the parent of inputs only, any
    other node is returned as it is. *)
Definition parentElement (n : node) : node :=
  match n with
  | Input f => Group f
  | _ => n
  end.

(** *** Computations over the page state *)

Definition M (A : Type) : Type := Window -> A * Window.

Definition ret {A} (a : A) : M A := fun d => (a, d).
Definition bind {A B} (m : M A) (k : A -> M B) : M B :=
  fun d => let (a, d') := m d in k a d'.

Definition modify (n : node) (g : Element -> Element) : M unit :=
  fun d => (tt, store n (g (element n d)) d).

(** [n.value] *)
Definition get_value (n : node) : M jsstring := fun d => (value (element n d), d).
(** The user's edit of an input: [n.value] becomes [v]. *)
Definition set_value (n : node) (v : jsstring) : M unit :=
  modify n (with_value v).
(** [n.textContent = t] *)
Definition set_textContent (n : node) (t : jsstring) : M unit :=
  modify n (with_textContent t).
(** [n.classList.add(c)] *)
Definition classList_add (n : node) (c : string) : M unit :=
  modify n (fun e => with_classList ({[c]} ∪ classList e) e).
(** [n.classList.remove(c)] *)
Definition classList_remove (n : node) (c : string) : M unit :=
  modify n (fun e => with_classList (classList e ∖ {[c]}) e).

(** [setTimeout(cb, ms)] *)
Definition setTimeout (cb : callback) (ms : N) : M unit :=
  fun d => (tt, mkWindow (inputs d) (groups d) (errorSlots d) (successBanner d)
                  (timers d ++ [(cb, ms)])).

(** [l.forEach(body)] *)
Fixpoint forEach {A} (l : list A) (body : A -> M unit) : M unit :=
  match l with
  | [] => ret tt
  | a :: l' => bind (body a) (fun _ => forEach l' body)
  end.

End DOM.

Import DOM.

Declare Scope js_scope.
Delimit Scope js_scope with js.
Notation "x <- m ;; k" := (bind m (fun x => k))
  (at level 100, m at next level, k at level 200, right associativity) : js_scope.
Notation "m ;; k" := (bind m (fun _ => k))
  (at level 100, k at level 200, right associativity) : js_scope.
Local Open Scope js_scope.

(** ** validation.js *)

Definition signupFormControls : list node :=
  [Input FullName; Input Email; Input Password; Input ConfirmPassword; Input Phone].

Definition fullNameInput : node := Input FullName.
Definition emailInput : node := Input Email.
Definition passwordInput : node := Input Password.
Definition confirmPasswordInput : node := Input ConfirmPassword.
Definition phoneInput : node := Input Phone.
Definition successMessage : node := SuccessMessage.

Definition fullNameError : node := ErrorSlot FullName.
Definition emailError : node := ErrorSlot Email.
Definition passwordError : node := ErrorSlot Password.
Definition confirmPasswordError : node := ErrorSlot ConfirmPassword.
Definition phoneError : node := ErrorSlot Phone.

(** Modelled from the spec: [signupForm.reset()] restores every control of
    the form to its default value, and the defaults are set in signup.html,
    which is missing.  By the spec's section 4.4 a reset clears all input
    values, so the controls are the five inputs and each default is the empty
    string. *)
Definition signupForm_reset : M unit :=
  forEach signupFormControls (fun input => set_value input []).

Definition showError (input errorElement : node) (message : jsstring) : M unit :=
  classList_add input "error-input" ;;
  classList_remove input "success-input" ;;
  set_textContent errorElement message ;;
  classList_add errorElement "show".

Definition clearError (input errorElement : node) : M unit :=
  classList_remove input "error-input" ;;
  classList_add input "success-input" ;;
  set_textContent errorElement [] ;;
  classList_remove errorElement "show".

Definition validateFullName : M bool :=
  v <- get_value fullNameInput ;;
  let fullName := trim v in
  let fullNameGroup := parentElement fullNameInput in
  if not_ fullName then
    showError fullNameInput fullNameError (lit "Full name is required") ;;
    classList_add fullNameGroup "error" ;;
    ret false
  else if (length fullName <? 3)%nat then
    showError fullNameInput fullNameError (lit "Full name must be at least 3 characters") ;;
    classList_add fullNameGroup "error" ;;
    ret false
  else
    clearError fullNameInput fullNameError ;;
    classList_remove fullNameGroup "error" ;;
    ret true.

(** [/^[^\s@]+@[^\s@]+\.[^\s@]+$/] *)
Definition not_space_at (c : code_unit) : bool :=
  negb (is_white_space c || (c =? 64)).
Definition emailRegex : regex :=
  Seq (Plus (Class not_space_at))
    (Seq (Chr 64)
      (Seq (Plus (Class not_space_at))
        (Seq (Chr 46) (Plus (Class not_space_at))))).

Definition validateEmail : M bool :=
  v <- get_value emailInput ;;
  let email := trim v in
  let emailGroup := parentElement emailInput in
  if not_ email then
    showError emailInput emailError (lit "Email is required") ;;
    classList_add emailGroup "error" ;;
    ret false
  else if negb (includes email (lit "@")) then
    showError emailInput emailError (lit "Email must contain @ symbol") ;;
    classList_add emailGroup "error" ;;
    ret false
  else if negb (includes email (lit ".")) then
    showError emailInput emailError (lit "Email must contain a domain (.)") ;;
    classList_add emailGroup "error" ;;
    ret false
  else if negb (test emailRegex email) then
    showError emailInput emailError (lit "Please enter a valid email format") ;;
    classList_add emailGroup "error" ;;
    ret false
  else
    clearError emailInput emailError ;;
    classList_remove emailGroup "error" ;;
    ret true.

Definition validatePassword : M bool :=
  password <- get_value passwordInput ;;
  let passwordGroup := parentElement passwordInput in
  if not_ password then
    showError passwordInput passwordError (lit "Password is required") ;;
    classList_add passwordGroup "error" ;;
    ret false
  else if (length password <? 6)%nat then
    showError passwordInput passwordError (lit "Password must be at least 6 characters") ;;
    classList_add passwordGroup "error" ;;
    ret false
  else
    clearError passwordInput passwordError ;;
    classList_remove passwordGroup "error" ;;
    ret true.

(** [password !== confirmPassword] on two strings: they differ as code-unit
    sequences. *)
Definition strict_neq (s t : jsstring) : bool := negb (bool_decide (s = t)).

Definition validateConfirmPassword : M bool :=
  password <- get_value passwordInput ;;
  confirmPassword <- get_value confirmPasswordInput ;;
  let confirmPasswordGroup := parentElement confirmPasswordInput in
  if not_ confirmPassword then
    showError confirmPasswordInput confirmPasswordError (lit "Please confirm your password") ;;
    classList_add confirmPasswordGroup "error" ;;
    ret false
  else if strict_neq password confirmPassword then
    showError confirmPasswordInput confirmPasswordError (lit "Passwords do not match") ;;
    classList_add confirmPasswordGroup "error" ;;
    ret false
  else
    clearError confirmPasswordInput confirmPasswordError ;;
    classList_remove confirmPasswordGroup "error" ;;
    ret true.

(** [/^\d+$/] *)
Definition phoneRegex : regex := Plus (Class is_digit).

Definition validatePhone : M bool :=
  v <- get_value phoneInput ;;
  let phone := trim v in
  let phoneGroup := parentElement phoneInput in
  if not_ phone then
    showError phoneInput phoneError (lit "Phone number is required") ;;
    classList_add phoneGroup "error" ;;
    ret false
  else if negb (test phoneRegex phone) then
    showError phoneInput phoneError (lit "Phone number must contain only digits (0-9)") ;;
    classList_add phoneGroup "error" ;;
    ret false
  else if (length phone <? 10)%nat then
    showError phoneInput phoneError (lit "Phone number must be at least 10 digits") ;;
    classList_add phoneGroup "error" ;;
    ret false
  else
    clearError phoneInput phoneError ;;
    classList_remove phoneGroup "error" ;;
    ret true.

Definition validateForm : M bool :=
  isFullNameValid <- validateFullName ;;
  isEmailValid <- validateEmail ;;
  isPasswordValid <- validatePassword ;;
  isConfirmPasswordValid <- validateConfirmPassword ;;
  isPhoneValid <- validatePhone ;;
  ret (isFullNameValid && isEmailValid && isPasswordValid
       && isConfirmPasswordValid && isPhoneValid).

Definition resetForm : M unit :=
  signupForm_reset ;;
  let inputs := [fullNameInput; emailInput; passwordInput; confirmPasswordInput; phoneInput] in
  let errors := [fullNameError; emailError; passwordError; confirmPasswordError; phoneError] in
  forEach inputs (fun input =>
    classList_remove input "error-input" ;;
    classList_remove input "success-input" ;;
    classList_remove (parentElement input) "error") ;;
  forEach errors (fun error =>
    set_textContent error [] ;;
    classList_remove error "show") ;;
  classList_remove successMessage "show".

Definition showSuccessMessage : M unit :=
  classList_add successMessage "show" ;;
  setTimeout HideSuccessMessage 5000.

(** The bodies of the two arrow functions passed to [setTimeout]. *)
Definition run_callback (cb : callback) : M unit :=
  match cb with
  | HideSuccessMessage => classList_remove successMessage "show"
  | ResetFormLater => resetForm
  end.

(** The ['submit'] listener of the form ([preventDefault] and the console
    output leave the page state alone). *)
Definition signupForm_onsubmit : M unit :=
  valid <- validateForm ;;
  if valid then
    showSuccessMessage ;;
    setTimeout ResetFormLater 2000
  else
    ret tt.


(** The validator registered as ['blur'] listener of each input. *)
Definition validator (f : field) : M bool :=
  match f with
  | FullName => validateFullName
  | Email => validateEmail
  | Password => validatePassword
  | ConfirmPassword => validateConfirmPassword
  | Phone => validatePhone
  end.

Definition onblur (f : field) : M unit :=
  validator f ;; ret tt.

(** The ['input'] listener of the confirm-password input. *)
Definition confirmPasswordInput_oninput : M unit :=
  this_value <- get_value confirmPasswordInput ;;
  if truthy this_value then validateConfirmPassword ;; ret tt
  else ret tt.

(** The ['input'] listener of the password input. *)
Definition passwordInput_oninput : M unit :=
  this_value <- get_value passwordInput ;;
  if (6 <=? length this_value)%nat then clearError passwordInput passwordError
  else ret tt.

(** The other three inputs have no ['input'] listener. *)
Definition oninput (f : field) : M unit :=
  match f with
  | ConfirmPassword => confirmPasswordInput_oninput
  | Password => passwordInput_oninput
  | _ => ret tt
  end.

(** ** The page as a transition system

    What can happen to a loaded page: the user edits an input (its value
    changes and an ['input'] event is dispatched on it), an input loses focus,
    the form is submitted, or a pending timer fires.  Time itself is not
    modelled: pending timers may fire in any order. *)

Inductive event : Type :=
| UserInput (f : field) (v : jsstring)
| Blur (f : field)
| Submit
| Timeout (i : nat).

Definition drop_timer (i : nat) : M unit :=
  fun d => (tt, mkWindow (inputs d) (groups d) (errorSlots d) (successBanner d)
                  (delete i (timers d))).

Definition handle (e : event) : M unit :=
  match e with
  | UserInput f v => set_value (Input f) v ;; oninput f
  | Blur f => onblur f
  | Submit => signupForm_onsubmit
  | Timeout i =>
      fun d =>
        match timers d !! i with
        | Some (cb, _) => (drop_timer i ;; run_callback cb) d
        | None => (tt, d)
        end
  end.

(** The script keeps no verdict variable.  The spec's verdict of a field
    (section 3: unset at first, wiped on reset) is the boolean its validator
    returned when it last ran; [System] pairs the page state with that
    history, and [step] records each verdict at the moment the validator
    returns it. *)
Record System : Type := mkSystem {
  window : Window;
  verdict : fields (option bool)
}.

Definition unset : fields (option bool) := Fields None None None None None.

Definition step (e : event) (s : System) : System :=
  match e with
  | UserInput f v =>
      let w0 := snd (set_value (Input f) v (window s)) in
      match f with
      | ConfirmPassword =>
          if truthy v then
            let (b, w) := validateConfirmPassword w0 in
            mkSystem w (set_field ConfirmPassword (Some b) (verdict s))
          else mkSystem w0 (verdict s)
      | _ => mkSystem (snd (oninput f w0)) (verdict s)
      end
  | Blur f =>
      let (b, w) := validator f (window s) in
      mkSystem w (set_field f (Some b) (verdict s))
  | Submit =>
      let (b1, w1) := validateFullName (window s) in
      let (b2, w2) := validateEmail w1 in
      let (b3, w3) := validatePassword w2 in
      let (b4, w4) := validateConfirmPassword w3 in
      let (b5, w5) := validatePhone w4 in
      mkSystem
        (if b1 && b2 && b3 && b4 && b5
         then snd ((showSuccessMessage ;; setTimeout ResetFormLater 2000) w5)
         else w5)
        (Fields (Some b1) (Some b2) (Some b3) (Some b4) (Some b5))
  | Timeout i =>
      match timers (window s) !! i with
      | Some (ResetFormLater, _) => mkSystem (snd (handle e (window s))) unset
      | _ => mkSystem (snd (handle e (window s))) (verdict s)
      end
  end.

Definition run (es : list event) (s : System) : System :=
  foldl (fun s e => step e s) s es.

(** A page as the browser hands it to the script: no text typed, no message
    shown, no state class set, no timer pending, no validator run yet.
    (signup.html is missing; the static classes it may put on the elements
    play no role in the script.) *)
Definition blank : Element := mkElement [] [] ∅.
Definition fresh_window : Window :=
  mkWindow (Fields blank blank blank blank blank) (Fields blank blank blank blank blank)
           (Fields blank blank blank blank blank) blank [].
Definition fresh : System := mkSystem fresh_window unset.

(** ** Reading the page state back *)

Definition value_of (f : field) (d : Window) : jsstring := value (element (Input f) d).
Definition input_classes (f : field) (d : Window) : gset string := classList (element (Input f) d).
Definition group_classes (f : field) (d : Window) : gset string := classList (element (Group f) d).
Definition slot_text (f : field) (d : Window) : jsstring := textContent (element (ErrorSlot f) d).
Definition slot_classes (f : field) (d : Window) : gset string := classList (element (ErrorSlot f) d).

(** What a failing, respectively passing, validator of field [f] does to the
    page: the tail shared by every branch of the five validators. *)
Definition flag_error (f : field) (message : jsstring) : M unit :=
  showError (Input f) (ErrorSlot f) message ;;
  classList_add (parentElement (Input f)) "error".

Definition flag_valid (f : field) : M unit :=
  clearError (Input f) (ErrorSlot f) ;;
  classList_remove (parentElement (Input f)) "error".

(** The spec's rule tables (section 4.1): rules are tried in order and the
    first one that fails supplies the message. *)
Definition rule : Type := (jsstring -> bool) * jsstring.

Fixpoint first_failing (rules : list rule) (v : jsstring) : option jsstring :=
  match rules with
  | [] => None
  | (holds, message) :: rest => if holds v then first_failing rest v else Some message
  end.

Definition fullNameRules : list rule :=
  [ (truthy, lit "Full name is required");
    (fun v => (3 <=? length v)%nat, lit "Full name must be at least 3 characters") ].

Definition emailRules : list rule :=
  [ (truthy, lit "Email is required");
    (fun v => bool_decide (64 ∈ v), lit "Email must contain @ symbol");
    (fun v => bool_decide (46 ∈ v), lit "Email must contain a domain (.)");
    (test emailRegex, lit "Please enter a valid email format") ].

Definition passwordRules : list rule :=
  [ (truthy, lit "Password is required");
    (fun v => (6 <=? length v)%nat, lit "Password must be at least 6 characters") ].

Definition confirmPasswordRules (password : jsstring) : list rule :=
  [ (truthy, lit "Please confirm your password");
    (fun v => bool_decide (v = password), lit "Passwords do not match") ].

Definition phoneRules : list rule :=
  [ (truthy, lit "Phone number is required");
    (test phoneRegex, lit "Phone number must contain only digits (0-9)");
    (fun v => (10 <=? length v)%nat, lit "Phone number must be at least 10 digits") ].

(** The rule table and the checked text of each field in a given page state:
    trimmed for name, email and phone, raw for the two password fields. *)
Definition rules_of (f : field) (d : Window) : list rule :=
  match f with
  | FullName => fullNameRules
  | Email => emailRules
  | Password => passwordRules
  | ConfirmPassword => confirmPasswordRules (value_of Password d)
  | Phone => phoneRules
  end.

Definition checked_text (f : field) (d : Window) : jsstring :=
  match f with
  | FullName | Email | Phone => trim (value_of f d)
  | Password | ConfirmPassword => value_of f d
  end.

Definition failure (f : field) (d : Window) : option jsstring :=
  first_failing (rules_of f d) (checked_text f d).

Definition passes (f : field) (d : Window) : bool :=
  match failure f d with None => true | Some _ => false end.

(** The cascade of a validator, as one computation. *)
Definition settle (f : field) (r : option jsstring) : M bool :=
  match r with
  | Some message => flag_error f message ;; ret false
  | None => flag_valid f ;; ret true
  end.

(** ** What the display operations do to each element *)

(** The element at node [n] after [settle f r], from the element [e] there
    before: only the input, the container and the slot of [f] change. *)
Definition settled (f : field) (r : option jsstring) (n : node) (e : Element) : Element :=
  match n, r with
  | Input g, Some _ =>
      if decide (f = g)
      then with_classList (({["error-input"]} ∪ classList e) ∖ {["success-input"]}) e
      else e
  | Input g, None =>
      if decide (f = g)
      then with_classList ({["success-input"]} ∪ (classList e ∖ {["error-input"]})) e
      else e
  | ErrorSlot g, Some message =>
      if decide (f = g) then mkElement (value e) message ({["show"]} ∪ classList e) else e
  | ErrorSlot g, None =>
      if decide (f = g) then mkElement (value e) [] (classList e ∖ {["show"]}) else e
  | Group g, Some _ =>
      if decide (f = g) then with_classList ({["error"]} ∪ classList e) e else e
  | Group g, None =>
      if decide (f = g) then with_classList (classList e ∖ {["error"]}) e else e
  | SuccessMessage, _ => e
  end.

(** The element at node [n] after [resetForm], from the element before. *)
Definition reset_element (n : node) (e : Element) : Element :=
  match n with
  | Input _ => mkElement [] (textContent e) (classList e ∖ {["error-input"]} ∖ {["success-input"]})
  | Group _ => with_classList (classList e ∖ {["error"]}) e
  | ErrorSlot _ => mkElement (value e) [] (classList e ∖ {["show"]})
  | SuccessMessage => with_classList (classList e ∖ {["show"]}) e
  end.

(** ** The two patterns, read as sets of words *)

(** A non-empty run of characters that are neither white space nor [@]. *)
Definition plain (s : jsstring) : Prop :=
  s <> [] /\ Forall (fun c => not_space_at c = true) s.

Definition email_shape (s : jsstring) : Prop :=
  exists a b c, s = a ++ [64] ++ b ++ [46] ++ c /\ plain a /\ plain b /\ plain c.

Definition all_digits (s : jsstring) : Prop :=
  s <> [] /\ Forall (fun c => is_digit c = true) s.

(** The page state after the user has typed [v] into the input of [f]
    (before any listener runs). *)
Definition typed (f : field) (v : jsstring) (d : Window) : Window :=
  snd (set_value (Input f) v d).

(** The element at node [n] after [clearError (Input f) (ErrorSlot f)], from
    the element [e] there before. *)
Definition cleared (f : field) (n : node) (e : Element) : Element :=
  match n with
  | Input g =>
      if decide (f = g)
      then with_classList ({["success-input"]} ∪ (classList e ∖ {["error-input"]})) e
      else e
  | ErrorSlot g =>
      if decide (f = g) then mkElement (value e) [] (classList e ∖ {["show"]}) else e
  | _ => e
  end.

(** The page state after the five validators have run one after the other. *)
Definition after_all (d : Window) : Window :=
  let d1 := snd (validator FullName d) in
  let d2 := snd (validator Email d1) in
  let d3 := snd (validator Password d2) in
  let d4 := snd (validator ConfirmPassword d3) in
  snd (validator Phone d4).

(** The page state after a successful submit has announced itself: the
    success branch of the ['submit'] listener. *)
Definition announce : M unit :=
  showSuccessMessage ;;
  setTimeout ResetFormLater 2000.

(** *** The invariants of the spec's data model *)

(** C7: no input carries both [error-input] and [success-input]. *)
Definition exclusive_styling (d : Window) : Prop :=
  forall f, ~ ("error-input" ∈ input_classes f d /\ "success-input" ∈ input_classes f d).

(** C3 as the spec words it: for every field, the slot is non-empty iff the
    input is styled as an error iff the last verdict was a failure. *)
Definition error_state_consistent (s : System) : Prop :=
  forall f,
    (slot_text f (window s) <> [] <-> "error-input" ∈ input_classes f (window s)) /\
    ("error-input" ∈ input_classes f (window s) <-> at_field f (verdict s) = Some false).

(** The same with the container's [error] class read as the styling flag. *)
Definition container_state_consistent (s : System) : Prop :=
  forall f,
    (slot_text f (window s) <> [] <-> "error" ∈ group_classes f (window s)) /\
    ("error" ∈ group_classes f (window s) <-> at_field f (verdict s) = Some false).

(** What the script maintains: slot and input styling agree; a non-empty slot
    comes from a failed verdict; and, for every field but the password, a
    failed verdict shows in the slot. *)
Definition error_state_sound (s : System) : Prop :=
  forall f,
    (slot_text f (window s) <> [] <-> "error-input" ∈ input_classes f (window s)) /\
    (slot_text f (window s) <> [] -> at_field f (verdict s) = Some false) /\
    (f <> Password -> at_field f (verdict s) = Some false -> slot_text f (window s) <> []).

(** How one event can change what a field shows: nothing, a failed
    validation, a passed one, the password shortcut, or a reset. *)
Inductive field_change (f : field) (s s' : System) : Prop :=
| change_none :
    input_classes f (window s') = input_classes f (window s) ->
    slot_text f (window s') = slot_text f (window s) ->
    at_field f (verdict s') = at_field f (verdict s) ->
    field_change f s s'
| change_failed message :
    message <> [] ->
    input_classes f (window s') =
      ({["error-input"]} ∪ input_classes f (window s)) ∖ {["success-input"]} ->
    slot_text f (window s') = message ->
    at_field f (verdict s') = Some false ->
    field_change f s s'
| change_passed :
    input_classes f (window s') =
      {["success-input"]} ∪ (input_classes f (window s) ∖ {["error-input"]}) ->
    slot_text f (window s') = [] ->
    at_field f (verdict s') = Some true ->
    field_change f s s'
| change_shortcut :
    f = Password ->
    input_classes f (window s') =
      {["success-input"]} ∪ (input_classes f (window s) ∖ {["error-input"]}) ->
    slot_text f (window s') = [] ->
    at_field f (verdict s') = at_field f (verdict s) ->
    field_change f s s'
| change_reset :
    input_classes f (window s') =
      input_classes f (window s) ∖ {["error-input"]} ∖ {["success-input"]} ->
    slot_text f (window s') = [] ->
    at_field f (verdict s') = None ->
    field_change f s s'.

(** ** 1st.js, the quick-reference file: its two example functions *)

(** [r] matches a prefix of [s]. *)
Fixpoint matches_at_start (r : regex) (s : jsstring) : bool :=
  nullable r ||
  match s with
  | [] => false
  | c :: s' => matches_at_start (deriv c r) s'
  end.

(** [/r/.test(s)] for a pattern without anchors: [r] matches at some index. *)
Fixpoint search (r : regex) (s : jsstring) : bool :=
  matches_at_start r s ||
  match s with
  | [] => false
  | _ :: s' => search r s'
  end.

Definition is_upper (c : code_unit) : bool := (65 <=? c) && (c <=? 90).
Definition is_lower (c : code_unit) : bool := (97 <=? c) && (c <=? 122).
(** [[^A-Za-z0-9]] *)
Definition is_special (c : code_unit) : bool :=
  negb (is_upper c || is_lower c || is_digit c).

Definition customPhoneValidation (phone : jsstring) : bool :=
  (10 <=? length phone)%nat && test phoneRegex phone.

Record Strength : Type := mkStrength {
  score : nat;
  level : string
}.

Definition checkPasswordStrength (password : jsstring) : Strength :=
  let strength := 0%nat in
  let strength := if (6 <=? length password)%nat then S strength else strength in
  let strength := if (8 <=? length password)%nat then S strength else strength in
  let strength := if search (Class is_upper) password then S strength else strength in
  let strength := if search (Class is_digit) password then S strength else strength in
  let strength := if search (Class is_special) password then S strength else strength in
  {| score := strength;
     level := if (strength <=? 2)%nat then "Weak"
              else if (strength <=? 3)%nat then "Fair"
              else if (strength <=? 4)%nat then "Good"
              else "Strong" |}.

(** *** Notions used to state what the script guarantees *)

Definition all_space (s : jsstring) : Prop :=
  Forall (fun c => is_white_space c = true) s.

(** What a submit accepts, in terms of the five typed values. *)
Definition form_valid (d : Window) : Prop :=
  (3 <= length (trim (value_of FullName d)))%nat /\
  email_shape (trim (value_of Email d)) /\
  (6 <= length (value_of Password d))%nat /\
  value_of ConfirmPassword d = value_of Password d /\
  all_digits (trim (value_of Phone d)) /\
  (10 <= length (trim (value_of Phone d)))%nat.

(** The four class names the script adds and removes. *)
Definition state_classes : gset string :=
  {["error-input"; "success-input"; "error"; "show"]}.

(** The success banner is on display. *)
Definition banner_shown (d : Window) : Prop :=
  "show" ∈ classList (element SuccessMessage d).

(* DEFS-END *)

(** * Proofs *)

(** ** Facts about strings and the matcher *)

Section StringFacts.

Implicit Types (s t : jsstring) (c : code_unit) (r : regex).

Lemma not_true s : not_ s = true <-> s = [].
Proof. destruct s; simpl; split; congruence. Qed.

Lemma not_false s : not_ s = false <-> s <> [].
Proof. destruct s; simpl; split; congruence. Qed.

Lemma includes_char s c : includes s [c] = true <-> c ∈ s.
Proof.
  induction s as [|a s IH]; simpl.
  - split; [discriminate | intros H; inversion H].
  - rewrite andb_true_r, orb_true_iff, IH, elem_of_cons, N.eqb_eq.
    split; intros [H|H]; auto.
Qed.

Lemma trimStart_idem s : trimStart (trimStart s) = trimStart s.
Proof.
  induction s as [|a s IH]; simpl; [done|].
  destruct (is_white_space a) eqn:E; [done|]. simpl. by rewrite E.
Qed.

(** What [trimStart] keeps does not begin with white space. *)
Lemma trimStart_fix s :
  head s ≫= (fun c => if is_white_space c then None else Some c) = head s ->
  trimStart s = s.
Proof.
  destruct s as [|a s]; simpl; [done|].
  destruct (is_white_space a); [discriminate | done].
Qed.

Lemma trimStart_app_keep s t c :
  is_white_space c = false ->
  trimStart (s ++ c :: t) = trimStart s ++ c :: t \/
  (trimStart s = [] /\ trimStart (s ++ c :: t) = c :: t).
Proof.
  intros Hc. induction s as [|a s IH]; simpl.
  - rewrite Hc. by left.
  - destruct (is_white_space a); [apply IH | by left].
Qed.

Lemma trimStart_all_space s : Forall (fun c => is_white_space c = true) s -> trimStart s = [].
Proof. induction 1 as [|a s Ha _ IH]; simpl; [done|]. by rewrite Ha. Qed.

Lemma trimStart_nil_inv s : trimStart s = [] -> Forall (fun c => is_white_space c = true) s.
Proof.
  induction s as [|a s IH]; simpl; [constructor|].
  destruct (is_white_space a) eqn:E; [|discriminate].
  intros H. constructor; auto.
Qed.

Lemma nullable_lang r : nullable r = true <-> lang r [].
Proof.
  induction r as [| | p | r1 IH1 r2 IH2 | r1 IH1 r2 IH2 | r1 IH1]; simpl.
  - split; [discriminate | inversion 1].
  - split; [constructor | done].
  - split; [discriminate | inversion 1].
  - rewrite andb_true_iff, IH1, IH2. split.
    + intros [H1 H2]. apply (lang_seq _ _ [] [] H1 H2).
    + inversion 1 as [| |? ? s1 s2 H1 H2 E1 E2| | | |]; subst.
      apply app_eq_nil in E2 as [-> ->]. done.
  - rewrite orb_true_iff, IH1, IH2. split.
    + intros [H|H]; [by apply lang_alt_l | by apply lang_alt_r].
    + inversion 1; subst; auto.
  - split; [constructor | done].
Qed.

Lemma lang_star_cons_inv r c s :
  lang (Star r) (c :: s) ->
  exists s1 s2, s = s1 ++ s2 /\ lang r (c :: s1) /\ lang (Star r) s2.
Proof.
  intros H. remember (Star r) as r' eqn:Er. remember (c :: s) as w eqn:Ew.
  revert s Ew.
  induction H as [| | | | | |r0 s1 s2 H1 _ H2 IH2]; intros w' Ew; try discriminate.
  injection Er as ->.
  destruct s1 as [|a s1]; simpl in Ew.
  - by apply IH2.
  - injection Ew as -> <-. eauto.
Qed.

Lemma deriv_lang r c s : lang (deriv c r) s <-> lang r (c :: s).
Proof.
  revert s. induction r as [| | p | r1 IH1 r2 IH2 | r1 IH1 r2 IH2 | r1 IH1]; intros s; simpl.
  - split; inversion 1.
  - split; inversion 1.
  - destruct (p c) eqn:E; split; inversion 1; subst.
    + by constructor.
    + constructor.
    + congruence.
  - destruct (nullable r1) eqn:N1; split.
    + inversion 1 as [| | |? ? ? H1|? ? ? H1| |]; subst.
      * inversion H1 as [| |? ? s1 s2 Ha Hb| | | |]; subst.
        apply IH1 in Ha. apply (lang_seq _ _ (c :: s1) s2 Ha Hb).
      * apply IH2 in H1. apply nullable_lang in N1.
        apply (lang_seq _ _ [] (c :: s) N1 H1).
    + inversion 1 as [| |? ? s1 s2 Ha Hb E1 E2| | | |]; subst.
      destruct s1 as [|a s1]; simpl in E2.
      * subst s2. apply lang_alt_r. by apply IH2.
      * injection E2 as -> <-. apply lang_alt_l. constructor; [by apply IH1 | done].
    + inversion 1 as [| |? ? s1 s2 Ha Hb| | | |]; subst.
      apply IH1 in Ha. apply (lang_seq _ _ (c :: s1) s2 Ha Hb).
    + inversion 1 as [| |? ? s1 s2 Ha Hb E1 E2| | | |]; subst.
      destruct s1 as [|a s1]; simpl in E2.
      * apply nullable_lang in Ha. congruence.
      * injection E2 as -> <-. constructor; [by apply IH1 | done].
  - split.
    + inversion 1; subst; [apply lang_alt_l; by apply IH1 | apply lang_alt_r; by apply IH2].
    + inversion 1; subst; [apply lang_alt_l; by apply IH1 | apply lang_alt_r; by apply IH2].
  - split.
    + inversion 1 as [| |? ? s1 s2 Ha Hb| | | |]; subst.
      apply IH1 in Ha. apply (lang_star_app _ (c :: s1) s2 Ha Hb).
    + intros H. apply lang_star_cons_inv in H as (s1 & s2 & -> & Ha & Hb).
      constructor; [by apply IH1 | done].
Qed.

(** The matcher decides the language of the regex. *)
Lemma test_lang r s : test r s = true <-> lang r s.
Proof.
  revert r. induction s as [|c s IH]; intros r; simpl.
  - apply nullable_lang.
  - rewrite IH. apply deriv_lang.
Qed.

End StringFacts.

(** ** Facts about the page state *)

Section WindowFacts.

Implicit Types (d : Window) (f g : field) (n m : node) (e : Element).

Lemma at_set_field {A} f g (a : A) (v : fields A) :
  at_field g (set_field f a v) = if decide (f = g) then a else at_field g v.
Proof. destruct f, g, v; reflexivity. Qed.

Lemma set_set_field {A} f (a b : A) (v : fields A) :
  set_field f a (set_field f b v) = set_field f a v.
Proof. destruct f, v; reflexivity. Qed.

Lemma element_store n m e d :
  element m (store n e d) = if decide (n = m) then e else element m d.
Proof.
  destruct n as [f|f|f|], m as [g|g|g|]; simpl; try reflexivity;
    rewrite at_set_field; destruct (decide (f = g)) as [->|Hne]; simpl;
    repeat case_decide; congruence.
Qed.

Lemma element_store_eq n e d : element n (store n e d) = e.
Proof. rewrite element_store. by rewrite decide_True. Qed.

Lemma element_store_ne n m e d : n <> m -> element m (store n e d) = element m d.
Proof. intros H. rewrite element_store. by rewrite decide_False. Qed.

Lemma timers_store n e d : timers (store n e d) = timers d.
Proof. by destruct n. Qed.

Lemma fields_ext {A} (v w : fields A) :
  (forall f, at_field f v = at_field f w) -> v = w.
Proof.
  intros H. destruct v, w.
  pose proof (H FullName). pose proof (H Email). pose proof (H Password).
  pose proof (H ConfirmPassword). pose proof (H Phone). simpl in *. congruence.
Qed.

(** Two page states with the same elements and timers are the same. *)
Lemma window_ext d d' :
  (forall n, element n d = element n d') -> timers d = timers d' -> d = d'.
Proof.
  intros H Ht. destruct d as [i g s b t], d' as [i' g' s' b' t']. simpl in Ht.
  assert (i = i') as -> by (apply fields_ext; intros f; apply (H (Input f))).
  assert (g = g') as -> by (apply fields_ext; intros f; apply (H (Group f))).
  assert (s = s') as -> by (apply fields_ext; intros f; apply (H (ErrorSlot f))).
  pose proof (H SuccessMessage) as Hb. simpl in Hb. congruence.
Qed.

(** Each validator is its rule table followed by the matching display. *)
Lemma validator_settle f d : validator f d = settle f (failure f d) d.
Proof.
  assert (Hi : forall v c (dec : Decision (c ∈ v)),
             @bool_decide (c ∈ v) dec = includes v [c]).
  { intros v c dec. apply eq_true_iff_eq. by rewrite includes_char, bool_decide_eq_true. }
  destruct f; unfold failure, checked_text, rules_of, value_of, validator.
  - unfold validateFullName, bind at 1, get_value at 1, fullNameInput.
    unfold fullNameRules, first_failing, truthy. set (v := trim _).
    rewrite Nat.ltb_antisym.
    destruct (not_ v); [reflexivity|].
    by destruct (3 <=? length v)%nat.
  - unfold validateEmail, bind at 1, get_value at 1, emailInput.
    unfold emailRules, first_failing, truthy. set (v := trim _).
    change (lit "@") with [64]. change (lit ".") with [46]. rewrite !Hi.
    destruct (not_ v); [reflexivity|].
    destruct (includes v [64]); [|reflexivity].
    destruct (includes v [46]); [|reflexivity].
    by destruct (test emailRegex v).
  - unfold validatePassword, bind at 1, get_value at 1, passwordInput.
    unfold passwordRules, first_failing, truthy. set (v := value _).
    rewrite Nat.ltb_antisym.
    destruct (not_ v); [reflexivity|].
    by destruct (6 <=? length v)%nat.
  - unfold validateConfirmPassword, bind at 1, get_value at 1.
    unfold bind at 1, get_value at 1, confirmPasswordInput, passwordInput.
    unfold confirmPasswordRules, first_failing, truthy, strict_neq.
    set (v := value (element (Input ConfirmPassword) d)).
    set (p := value _).
    rewrite (bool_decide_ext (p = v) (v = p)) by done.
    destruct (not_ v); [reflexivity|].
    by destruct (bool_decide (v = p)).
  - unfold validatePhone, bind at 1, get_value at 1, phoneInput.
    unfold phoneRules, first_failing, truthy. set (v := trim _).
    rewrite Nat.ltb_antisym.
    destruct (not_ v); [reflexivity|].
    destruct (test phoneRegex v); [|reflexivity].
    by destruct (10 <=? length v)%nat.
Qed.

End WindowFacts.

Section DisplayFacts.

Implicit Types (d : Window) (f g : field) (n : node) (r : option jsstring).

Lemma settle_fst f r d : fst (settle f r d) = bool_decide (r = None).
Proof. by destruct r. Qed.

Lemma settle_element f r n d :
  element n (snd (settle f r d)) = settled f r n (element n d).
Proof. destruct r, f, n as [g|g|g|]; try destruct g; reflexivity. Qed.

Lemma settle_timers f r d : timers (snd (settle f r d)) = timers d.
Proof. destruct r, f; reflexivity. Qed.

Lemma settle_value f r g d : value_of g (snd (settle f r d)) = value_of g d.
Proof.
  unfold value_of. rewrite settle_element.
  destruct r; simpl; by case_decide.
Qed.

Lemma resetForm_element n d : element n (snd (resetForm d)) = reset_element n (element n d).
Proof. destruct n as [g|g|g|]; try destruct g; reflexivity. Qed.

Lemma resetForm_timers d : timers (snd (resetForm d)) = timers d.
Proof. reflexivity. Qed.

(** A verdict depends on the typed values only. *)
Lemma failure_values g d d' :
  (forall f, value_of f d = value_of f d') -> failure g d = failure g d'.
Proof.
  intros H. unfold failure, checked_text, rules_of.
  destruct g; by rewrite ?H.
Qed.

End DisplayFacts.

(** ** Facts about the two patterns *)

Section PatternFacts.

Implicit Types (s : jsstring) (p : N -> bool).

Lemma lang_class_inv p s : lang (Class p) s <-> exists c, s = [c] /\ p c = true.
Proof.
  split.
  - inversion 1; subst; eauto.
  - intros (c & -> & H). by constructor.
Qed.

Lemma lang_star_class p s : lang (Star (Class p)) s <-> Forall (fun c => p c = true) s.
Proof.
  split.
  - intros H. remember (Star (Class p)) as r eqn:Er.
    induction H as [| | | | | |r0 s1 s2 H1 _ H2 IH2]; try discriminate.
    + constructor.
    + injection Er as ->. apply lang_class_inv in H1 as (c & -> & Hc).
      constructor; auto.
  - induction 1 as [|c s Hc _ IH]; [constructor|].
    apply (lang_star_app _ [c] s); [by constructor | done].
Qed.

Lemma lang_plus_class p s :
  lang (Plus (Class p)) s <-> s <> [] /\ Forall (fun c => p c = true) s.
Proof.
  unfold Plus. split.
  - inversion 1 as [| |? ? s1 s2 H1 H2| | | |]; subst.
    apply lang_class_inv in H1 as (c & -> & Hc). apply lang_star_class in H2.
    split; [done | by constructor].
  - intros [Hne H]. destruct H as [|c s Hc H]; [done|].
    apply (lang_seq _ _ [c] s); [by constructor | by apply lang_star_class].
Qed.

Lemma lang_seq_inv r1 r2 s :
  lang (Seq r1 r2) s <-> exists s1 s2, s = s1 ++ s2 /\ lang r1 s1 /\ lang r2 s2.
Proof.
  split.
  - inversion 1; subst; eauto.
  - intros (s1 & s2 & -> & H1 & H2). by constructor.
Qed.

Lemma lang_chr c s : lang (Chr c) s <-> s = [c].
Proof.
  unfold Chr. rewrite lang_class_inv. split.
  - intros (c' & -> & H). apply N.eqb_eq in H. by subst.
  - intros ->. exists c. split; [done | apply N.eqb_refl].
Qed.

Lemma test_phoneRegex s : test phoneRegex s = true <-> all_digits s.
Proof. rewrite test_lang. apply lang_plus_class. Qed.

Lemma test_emailRegex s : test emailRegex s = true <-> email_shape s.
Proof.
  rewrite test_lang. unfold emailRegex, email_shape, plain. split.
  - intros H.
    apply lang_seq_inv in H as (a & s1 & -> & Ha & H).
    apply lang_seq_inv in H as (x & s2 & -> & Hx & H).
    apply lang_seq_inv in H as (b & s3 & -> & Hb & H).
    apply lang_seq_inv in H as (y & c & -> & Hy & Hc).
    apply lang_chr in Hx as ->. apply lang_chr in Hy as ->.
    apply lang_plus_class in Ha, Hb, Hc. by exists a, b, c.
  - intros (a & b & c & -> & Ha & Hb & Hc).
    apply lang_plus_class in Ha, Hb, Hc.
    apply lang_seq; [done|]. apply lang_seq; [by apply lang_chr|].
    apply lang_seq; [done|]. apply lang_seq; [by apply lang_chr|]. done.
Qed.

End PatternFacts.

(** ** The validators against their rule tables *)

Section ValidatorFacts.

Implicit Types (d : Window) (f g : field) (v : jsstring).

Lemma value_of_typed f g v d :
  value_of g (typed f v d) = if decide (f = g) then v else value_of g d.
Proof. destruct f, g; reflexivity. Qed.

Lemma typed_element f v n d :
  element n (typed f v d) =
  if decide (n = Input f) then with_value v (element n d) else element n d.
Proof.
  unfold typed, set_value, modify. cbn [snd]. rewrite element_store.
  destruct (decide (Input f = n)) as [<-|Hne]; [by rewrite decide_True|].
  by rewrite decide_False by congruence.
Qed.

Lemma validator_fst f d : fst (validator f d) = bool_decide (failure f d = None).
Proof. by rewrite validator_settle, settle_fst. Qed.

Lemma validator_slot_text f d :
  slot_text f (snd (validator f d)) = default [] (failure f d).
Proof.
  rewrite validator_settle. unfold slot_text. rewrite settle_element.
  destruct (failure f d); simpl; by rewrite decide_True.
Qed.

Lemma validator_value f g d : value_of g (snd (validator f d)) = value_of g d.
Proof. by rewrite validator_settle, settle_value. Qed.

Lemma failure_typed_trimmed f v d :
  f = FullName \/ f = Email \/ f = Phone ->
  failure f (typed f v d) = first_failing (rules_of f d) (trim v).
Proof.
  intros [-> | [-> | ->]]; unfold failure, checked_text, rules_of;
    by rewrite value_of_typed, decide_True.
Qed.

End ValidatorFacts.

(** C2. [validateEmail] works on the trimmed value and shows the message of
    the first rule that fails, in the order empty, no [@], no [.], pattern
    (the words [a@b.c] with three runs free of white space and [@]); it
    returns true exactly when no rule fails.  On the four sample inputs:
    ["a@b.c"] passes, ["ab.c"] fails with the [@] message, ["a@bc"] with the
    [.] message, ["a @b.c"] with the format message. *)
Theorem validateEmail_first_failing_rule :
  (forall d,
     let r := first_failing emailRules (trim (value_of Email d)) in
     validateEmail d = settle Email r d /\
     fst (validateEmail d) = bool_decide (r = None) /\
     slot_text Email (snd (validateEmail d)) = default [] r) /\
  (forall v, test emailRegex v = true <-> email_shape v) /\
  (forall d, let d' := typed Email (lit "a@b.c") d in
     fst (validateEmail d') = true /\
     slot_text Email (snd (validateEmail d')) = []) /\
  (forall d, let d' := typed Email (lit "ab.c") d in
     fst (validateEmail d') = false /\
     slot_text Email (snd (validateEmail d')) = lit "Email must contain @ symbol") /\
  (forall d, let d' := typed Email (lit "a@bc") d in
     fst (validateEmail d') = false /\
     slot_text Email (snd (validateEmail d')) = lit "Email must contain a domain (.)") /\
  (forall d, let d' := typed Email (lit "a @b.c") d in
     fst (validateEmail d') = false /\
     slot_text Email (snd (validateEmail d')) = lit "Please enter a valid email format").
Proof.
  assert (Hrun : forall v d r, first_failing emailRules (trim v) = r ->
            fst (validateEmail (typed Email v d)) = bool_decide (r = None) /\
            slot_text Email (snd (validateEmail (typed Email v d))) = default [] r).
  { intros v d r <-. change validateEmail with (validator Email).
    rewrite validator_fst, validator_slot_text, failure_typed_trimmed by auto. done. }
  split; [|split; [exact test_emailRegex|]].
  - intros d r. change validateEmail with (validator Email).
    split; [apply validator_settle|]. split; [apply validator_fst | apply validator_slot_text].
  - repeat apply conj; intros d; cbv zeta.
    + by apply (Hrun _ d None).
    + by apply (Hrun _ d (Some (lit "Email must contain @ symbol"))).
    + by apply (Hrun _ d (Some (lit "Email must contain a domain (.)"))).
    + by apply (Hrun _ d (Some (lit "Please enter a valid email format"))).
Qed.

(** C5. [validatePhone] works on the trimmed value and shows the message of
    the first rule that fails, in the order empty, not all digits, shorter
    than ten; it returns true exactly when no rule fails.  ["12345"] fails as
    too short, ["12345abcde"] fails with the digits message, ["1234567890"]
    passes. *)
Theorem validatePhone_first_failing_rule :
  (forall d,
     let r := first_failing phoneRules (trim (value_of Phone d)) in
     validatePhone d = settle Phone r d /\
     fst (validatePhone d) = bool_decide (r = None) /\
     slot_text Phone (snd (validatePhone d)) = default [] r) /\
  (forall v, test phoneRegex v = true <-> all_digits v) /\
  (forall d, let d' := typed Phone (lit "12345") d in
     fst (validatePhone d') = false /\
     slot_text Phone (snd (validatePhone d')) = lit "Phone number must be at least 10 digits") /\
  (forall d, let d' := typed Phone (lit "12345abcde") d in
     fst (validatePhone d') = false /\
     slot_text Phone (snd (validatePhone d')) =
       lit "Phone number must contain only digits (0-9)") /\
  (forall d, let d' := typed Phone (lit "1234567890") d in
     fst (validatePhone d') = true /\
     slot_text Phone (snd (validatePhone d')) = []).
Proof.
  assert (Hrun : forall v d r, first_failing phoneRules (trim v) = r ->
            fst (validatePhone (typed Phone v d)) = bool_decide (r = None) /\
            slot_text Phone (snd (validatePhone (typed Phone v d))) = default [] r).
  { intros v d r <-. change validatePhone with (validator Phone).
    rewrite validator_fst, validator_slot_text, failure_typed_trimmed by auto. done. }
  split; [|split; [exact test_phoneRegex|]].
  - intros d r. change validatePhone with (validator Phone).
    split; [apply validator_settle|]. split; [apply validator_fst | apply validator_slot_text].
  - repeat apply conj; intros d; cbv zeta.
    + by apply (Hrun _ d (Some (lit "Phone number must be at least 10 digits"))).
    + by apply (Hrun _ d (Some (lit "Phone number must contain only digits (0-9)"))).
    + by apply (Hrun _ d None).
Qed.

(** ** The listeners *)

Section ListenerFacts.

Implicit Types (d : Window) (f g : field) (v : jsstring) (n : node).

Lemma clearError_element f n d :
  element n (snd (clearError (Input f) (ErrorSlot f) d)) = cleared f n (element n d).
Proof. destruct f, n as [g|g|g|]; try destruct g; reflexivity. Qed.

Lemma clearError_timers f d : timers (snd (clearError (Input f) (ErrorSlot f) d)) = timers d.
Proof. by destruct f. Qed.

Lemma passwordInput_oninput_run d :
  passwordInput_oninput d =
  if (6 <=? length (value_of Password d))%nat
  then clearError passwordInput passwordError d
  else (tt, d).
Proof.
  unfold passwordInput_oninput, bind, get_value, value_of, passwordInput.
  by destruct (6 <=? _)%nat.
Qed.

Lemma confirmPasswordInput_oninput_run d :
  snd (confirmPasswordInput_oninput d) =
  if truthy (value_of ConfirmPassword d)
  then snd (validator ConfirmPassword d)
  else d.
Proof.
  unfold confirmPasswordInput_oninput, bind at 1, get_value at 1, value_of, confirmPasswordInput.
  destruct (truthy _); [|reflexivity].
  unfold bind, validator. by destruct (validateConfirmPassword d).
Qed.

Lemma oninput_value f g d : value_of g (snd (oninput f d)) = value_of g d.
Proof.
  destruct f; try reflexivity.
  - unfold oninput at 1. rewrite passwordInput_oninput_run.
    destruct (6 <=? _)%nat; [|reflexivity].
    unfold value_of, passwordInput, passwordError. rewrite clearError_element.
    simpl. by case_decide.
  - unfold oninput. rewrite confirmPasswordInput_oninput_run.
    destruct (truthy _); [|reflexivity]. apply validator_value.
Qed.

Lemma handle_UserInput_value f g v d :
  value_of g (snd (handle (UserInput f v) d)) = if decide (f = g) then v else value_of g d.
Proof.
  change (snd (handle (UserInput f v) d)) with (snd (oninput f (typed f v d))).
  by rewrite oninput_value, value_of_typed.
Qed.

Lemma validator_fst_values g d d' :
  (forall f, value_of f d = value_of f d') -> fst (validator g d) = fst (validator g d').
Proof. intros H. by rewrite !validator_fst, (failure_values g d d'). Qed.

(** [validateForm] returns the conjunction of the verdicts each validator
    gives on the state at the call, and leaves the state the five validators
    produce in sequence. *)
Lemma validateForm_run d :
  validateForm d =
  (fst (validator FullName d) && fst (validator Email d) && fst (validator Password d)
     && fst (validator ConfirmPassword d) && fst (validator Phone d),
   after_all d).
Proof.
  unfold validateForm, after_all, bind, ret.
  set (d1 := snd (validator FullName d)).
  set (d2 := snd (validator Email d1)).
  set (d3 := snd (validator Password d2)).
  set (d4 := snd (validator ConfirmPassword d3)).
  assert (V1 : forall f, value_of f d1 = value_of f d) by (intros f; apply validator_value).
  assert (V2 : forall f, value_of f d2 = value_of f d).
  { intros f. unfold d2. by rewrite validator_value. }
  assert (V3 : forall f, value_of f d3 = value_of f d).
  { intros f. unfold d3. by rewrite validator_value. }
  assert (V4 : forall f, value_of f d4 = value_of f d).
  { intros f. unfold d4. by rewrite validator_value. }
  rewrite <- (validator_fst_values Email d1 d V1), <- (validator_fst_values Password d2 d V2),
    <- (validator_fst_values ConfirmPassword d3 d V3), <- (validator_fst_values Phone d4 d V4).
  subst d1 d2 d3 d4. cbn [validator].
  destruct (validateFullName d) as [b1 d1]. cbn [fst snd].
  destruct (validateEmail d1) as [b2 d2]. cbn [fst snd].
  destruct (validatePassword d2) as [b3 d3]. cbn [fst snd].
  destruct (validateConfirmPassword d3) as [b4 d4]. cbn [fst snd].
  by destruct (validatePhone d4) as [b5 d5].
Qed.

Lemma validator_element f n d :
  element n (snd (validator f d)) = settled f (failure f d) n (element n d).
Proof. by rewrite validator_settle, settle_element. Qed.

Lemma failure_after_validator g f d : failure g (snd (validator f d)) = failure g d.
Proof. apply failure_values. intros h. apply validator_value. Qed.

Lemma after_all_element n d :
  element n (after_all d) =
  settled Phone (failure Phone d) n
    (settled ConfirmPassword (failure ConfirmPassword d) n
      (settled Password (failure Password d) n
        (settled Email (failure Email d) n
          (settled FullName (failure FullName d) n (element n d))))).
Proof.
  unfold after_all. cbv zeta.
  by rewrite !validator_element, !failure_after_validator.
Qed.

(** Of the five displays only the field's own reaches its elements. *)
Lemma after_all_own f n d :
  n = Input f \/ n = Group f \/ n = ErrorSlot f ->
  element n (after_all d) = element n (snd (validator f d)).
Proof.
  intros Hn. rewrite after_all_element, validator_element.
  destruct Hn as [-> | [-> | ->]]; destruct f; unfold settled;
    repeat (rewrite decide_True by done || rewrite decide_False by done);
    repeat match goal with |- context [failure ?g d] => destruct (failure g d) end;
    reflexivity.
Qed.

End ListenerFacts.

(** ** The claims about single calls *)

(** C1. [validateForm] runs all five validators whatever their verdicts: it
    returns the conjunction of the five verdicts, and afterwards the input,
    container and error slot of every field are as that field's own validator
    leaves them.  With all five values empty it returns false and every error
    slot holds a non-empty message. *)
Theorem validateForm_runs_every_validator (d : Window) :
  fst (validateForm d) =
    fst (validateFullName d) && fst (validateEmail d) && fst (validatePassword d)
      && fst (validateConfirmPassword d) && fst (validatePhone d) /\
  (forall f,
     element (Input f) (snd (validateForm d)) = element (Input f) (snd (validator f d)) /\
     element (Group f) (snd (validateForm d)) = element (Group f) (snd (validator f d)) /\
     element (ErrorSlot f) (snd (validateForm d)) = element (ErrorSlot f) (snd (validator f d))) /\
  ((forall f, value_of f d = []) ->
     fst (validateForm d) = false /\
     forall f, slot_text f (snd (validateForm d)) <> []).
Proof.
  rewrite validateForm_run. cbn [fst snd]. split; [reflexivity|]. split.
  - intros f. repeat split; apply after_all_own; auto.
  - intros Hempty.
    assert (Hfail : forall f, failure f d <> None).
    { intros f. unfold failure, checked_text, rules_of.
      destruct f; rewrite ?Hempty; discriminate. }
    split.
    + rewrite (validator_fst FullName), bool_decide_eq_false_2; [reflexivity | apply Hfail].
    + intros f. unfold slot_text. rewrite (after_all_own f) by auto.
      fold (slot_text f (snd (validator f d))). rewrite validator_slot_text.
      unfold failure, checked_text, rules_of. destruct f; rewrite ?Hempty; discriminate.
Qed.

Lemma validateForm_all_empty :
  fst (validateForm fresh_window) = false /\
  forall f, slot_text f (snd (validateForm fresh_window)) <> [].
Proof.
  apply (proj2 (proj2 (validateForm_runs_every_validator fresh_window))).
  intros f. by destruct f.
Defined.

(** C4. [validateConfirmPassword] returns true exactly when the confirm value
    is non-empty and equal to the password value; so once the two match, any
    edit of the password to a different string makes the next call return
    false. *)
Theorem validateConfirmPassword_matches_password :
  (forall d,
     fst (validateConfirmPassword d) = true <->
     value_of ConfirmPassword d <> [] /\ value_of ConfirmPassword d = value_of Password d) /\
  (forall d p,
     value_of ConfirmPassword d = value_of Password d ->
     p <> value_of Password d ->
     fst (validateConfirmPassword (snd (handle (UserInput Password p) d))) = false).
Proof.
  assert (Hiff : forall d,
     fst (validateConfirmPassword d) = true <->
     value_of ConfirmPassword d <> [] /\ value_of ConfirmPassword d = value_of Password d).
  { intros d. change validateConfirmPassword with (validator ConfirmPassword).
    rewrite validator_fst, bool_decide_eq_true.
    unfold failure, checked_text, rules_of, confirmPasswordRules, first_failing, truthy.
    destruct (not_ (value_of ConfirmPassword d)) eqn:E; simpl.
    - apply not_true in E. split; [discriminate | intros [? _]; done].
    - apply not_false in E. case_bool_decide; split; try done; intros [_ ?]; done. }
  split; [exact Hiff|].
  intros d p Hmatch Hdiff.
  apply not_true_iff_false. rewrite Hiff, !handle_UserInput_value.
  rewrite decide_False, decide_True by done. intros [_ H]. congruence.
Qed.

Lemma validateConfirmPassword_after_edit :
  fst (validateConfirmPassword
         (snd (handle (UserInput Password (lit "abc1234"))
                 (typed ConfirmPassword (lit "abc123")
                    (typed Password (lit "abc123") fresh_window))))) = false.
Proof.
  apply (proj2 validateConfirmPassword_matches_password); [reflexivity | discriminate].
Defined.

(** C8. A validator writes to the elements of its own field only: the input,
    container and error slot of every other field, the banner and the timers
    are as before, and no input value changes, its own included
    ([validateConfirmPassword] reads the password input and leaves it). *)
Theorem validator_frame (f g : field) (d : Window) :
  f <> g ->
  element (Input g) (snd (validator f d)) = element (Input g) d /\
  element (Group g) (snd (validator f d)) = element (Group g) d /\
  element (ErrorSlot g) (snd (validator f d)) = element (ErrorSlot g) d /\
  element SuccessMessage (snd (validator f d)) = element SuccessMessage d /\
  timers (snd (validator f d)) = timers d /\
  value_of f (snd (validator f d)) = value_of f d.
Proof.
  intros Hne. rewrite !validator_element, validator_value.
  rewrite validator_settle, settle_timers. unfold settled.
  destruct (failure f d); rewrite !decide_False by done; done.
Qed.

Lemma validateConfirmPassword_frame_password :
  let d := typed ConfirmPassword (lit "abc") (typed Password (lit "abcdef") fresh_window) in
  element (Input Password) (snd (validateConfirmPassword d)) = element (Input Password) d /\
  element (Group Password) (snd (validateConfirmPassword d)) = element (Group Password) d /\
  element (ErrorSlot Password) (snd (validateConfirmPassword d)) = element (ErrorSlot Password) d /\
  element SuccessMessage (snd (validateConfirmPassword d)) = element SuccessMessage d /\
  timers (snd (validateConfirmPassword d)) = timers d /\
  value_of ConfirmPassword (snd (validateConfirmPassword d)) = value_of ConfirmPassword d.
Proof.
  intros d. apply (validator_frame ConfirmPassword Password d). discriminate.
Defined.

(** C9 as stated fails when the confirm value is empty: with password [" "]
    and nothing typed into the confirm input the two values differ only in
    outer white space, and the validator shows the required-field message,
    not the mismatch message. *)
Lemma validateConfirmPassword_empty_confirm :
  let d := typed Password (lit " ") fresh_window in
  trim (value_of Password d) = trim (value_of ConfirmPassword d) /\
  value_of Password d <> value_of ConfirmPassword d /\
  fst (validateConfirmPassword d) = false /\
  slot_text ConfirmPassword (snd (validateConfirmPassword d)) =
    lit "Please confirm your password" /\
  slot_text ConfirmPassword (snd (validateConfirmPassword d)) <>
    lit "Passwords do not match".
Proof. cbv zeta. repeat apply conj; try reflexivity; discriminate. Qed.

(** C9, amended. [validateConfirmPassword] compares the raw values: when the
    password and confirm values differ only in leading or trailing white
    space it returns false, with the mismatch message if the confirm value is
    non-empty and with the required-field message if it is empty; the name,
    email and phone validators depend on the trimmed value only. *)
Theorem validateConfirmPassword_compares_raw (d : Window) :
  trim (value_of Password d) = trim (value_of ConfirmPassword d) ->
  value_of Password d <> value_of ConfirmPassword d ->
  fst (validateConfirmPassword d) = false /\
  slot_text ConfirmPassword (snd (validateConfirmPassword d)) =
    (if not_ (value_of ConfirmPassword d)
     then lit "Please confirm your password"
     else lit "Passwords do not match") /\
  (forall f d', f = FullName \/ f = Email \/ f = Phone ->
     trim (value_of f d') = trim (value_of f d) ->
     fst (validator f d') = fst (validator f d)).
Proof.
  intros _ Hdiff. change validateConfirmPassword with (validator ConfirmPassword).
  rewrite validator_fst, validator_slot_text.
  assert (Hf : failure ConfirmPassword d =
               Some (if not_ (value_of ConfirmPassword d)
                     then lit "Please confirm your password"
                     else lit "Passwords do not match")).
  { unfold failure, checked_text, rules_of, confirmPasswordRules, first_failing, truthy.
    destruct (not_ (value_of ConfirmPassword d)); simpl; [done|].
    by rewrite bool_decide_eq_false_2 by congruence. }
  rewrite Hf. repeat apply conj; try done.
  intros f d' Hf3 Htrim. rewrite !validator_fst. unfold failure, checked_text, rules_of.
  destruct Hf3 as [-> | [-> | ->]]; by rewrite Htrim.
Qed.

Lemma validateConfirmPassword_trailing_space :
  let d := typed ConfirmPassword (lit "abc123 ") (typed Password (lit "abc123") fresh_window) in
  fst (validateConfirmPassword d) = false /\
  slot_text ConfirmPassword (snd (validateConfirmPassword d)) = lit "Passwords do not match".
Proof.
  intros d.
  destruct (validateConfirmPassword_compares_raw d) as (H1 & H2 & _);
    [reflexivity | discriminate | ].
  split; [exact H1 | exact H2].
Defined.

(** C6. From any page state [resetForm] empties every input value, removes
    [error-input] and [success-input] from every input and [error] from
    every container, empties and hides every error slot and hides the
    banner; running it a second time changes nothing. *)
Theorem resetForm_idempotent (d : Window) :
  (forall f,
     value_of f (snd (resetForm d)) = [] /\
     ("error-input" ∉ input_classes f (snd (resetForm d))) /\
     ("success-input" ∉ input_classes f (snd (resetForm d))) /\
     ("error" ∉ group_classes f (snd (resetForm d))) /\
     slot_text f (snd (resetForm d)) = [] /\
     ("show" ∉ slot_classes f (snd (resetForm d)))) /\
  ("show" ∉ classList (element SuccessMessage (snd (resetForm d)))) /\
  snd (resetForm (snd (resetForm d))) = snd (resetForm d).
Proof.
  split; [|split].
  - intros f. unfold value_of, input_classes, group_classes, slot_text, slot_classes.
    rewrite !resetForm_element. simpl. repeat apply conj; try done; set_solver.
  - rewrite resetForm_element. simpl. set_solver.
  - apply window_ext; [|by rewrite !resetForm_timers].
    intros n. rewrite !resetForm_element.
    destruct n; unfold reset_element, with_classList; simpl; f_equal; set_solver.
Qed.

(** C10. When the value typed into the password input has length 6 or more,
    its ['input'] listener only calls [clearError]: the password error slot is
    emptied and hidden, [error-input] gives way to [success-input], and the
    container keeps its classes; an [error] class put there by a failed
    [validatePassword] is still there afterwards. *)
Theorem password_shortcut_keeps_container_flag (d : Window) (v : list N) :
  (6 <= length v)%nat ->
  let d' := snd (handle (UserInput Password v) d) in
  handle (UserInput Password v) d =
    clearError passwordInput passwordError (typed Password v d) /\
  slot_text Password d' = [] /\
  ("show" ∉ slot_classes Password d') /\
  ("error-input" ∉ input_classes Password d') /\
  "success-input" ∈ input_classes Password d' /\
  group_classes Password d' = group_classes Password d /\
  (fst (validatePassword d) = false ->
   "error" ∈ group_classes Password
               (snd (handle (UserInput Password v) (snd (validatePassword d))))).
Proof.
  intros Hlen.
  assert (Hrun : forall d0, handle (UserInput Password v) d0 =
                            clearError passwordInput passwordError (typed Password v d0)).
  { intros d0.
    change (handle (UserInput Password v) d0) with (passwordInput_oninput (typed Password v d0)).
    rewrite passwordInput_oninput_run, value_of_typed, decide_True by done.
    by rewrite (proj2 (Nat.leb_le _ _) Hlen). }
  cbv zeta. rewrite !Hrun. split; [done|].
  unfold slot_text, slot_classes, input_classes, group_classes, passwordInput, passwordError.
  rewrite !clearError_element, !typed_element. unfold cleared.
  rewrite !decide_True by done. repeat apply conj; simpl.
  - done.
  - apply not_elem_of_difference. right. by apply elem_of_singleton.
  - rewrite not_elem_of_union, not_elem_of_difference, !elem_of_singleton. split; [done | by right].
  - apply elem_of_union_l. by apply elem_of_singleton.
  - done.
  - intros Hfail.
    change (classList (at_password (groups (snd (validatePassword d)))))
      with (classList (element (Group Password) (snd (validator Password d)))).
    change validatePassword with (validator Password) in Hfail.
    rewrite validator_fst in Hfail. apply bool_decide_eq_false in Hfail.
    rewrite validator_element. unfold settled.
    destruct (failure Password d); [|done]. rewrite decide_True by done. simpl.
    apply elem_of_union_l. by apply elem_of_singleton.
Qed.

Lemma password_shortcut_after_failure :
  "error" ∈ group_classes Password
    (snd (handle (UserInput Password (lit "abcdef"))
            (snd (validatePassword (typed Password (lit "abc") fresh_window))))).
Proof.
  assert (Hlen : (6 <= length (lit "abcdef"))%nat) by (simpl; lia).
  destruct (password_shortcut_keeps_container_flag
              (typed Password (lit "abc") fresh_window) (lit "abcdef") Hlen)
    as (_ & _ & _ & _ & _ & _ & Hkept).
  apply Hkept. reflexivity.
Defined.

(** ** The transition system *)

Section SystemFacts.

Implicit Types (d : Window) (s : System) (f g : field) (v : list N) (n : node) (e : event).

Lemma failure_nonempty f d message : failure f d = Some message -> message <> [].
Proof.
  unfold failure, rules_of, fullNameRules, emailRules, passwordRules,
    confirmPasswordRules, phoneRules, first_failing.
  destruct f;
    repeat match goal with |- context [if ?b then _ else _] => destruct b end;
    intros [= <-]; discriminate.
Qed.

Lemma announce_element n d : n <> SuccessMessage -> element n (snd (announce d)) = element n d.
Proof. by destruct n. Qed.

Lemma step_Blur f s :
  step (Blur f) s =
  mkSystem (snd (validator f (window s)))
           (set_field f (Some (fst (validator f (window s)))) (verdict s)).
Proof. unfold step. by destruct (validator f (window s)). Qed.

Lemma step_UserInput f v s :
  step (UserInput f v) s =
  let w0 := typed f v (window s) in
  match f with
  | ConfirmPassword =>
      if truthy v
      then mkSystem (snd (validator ConfirmPassword w0))
                    (set_field ConfirmPassword (Some (fst (validator ConfirmPassword w0)))
                               (verdict s))
      else mkSystem w0 (verdict s)
  | Password =>
      mkSystem (if (6 <=? length v)%nat
                then snd (clearError passwordInput passwordError w0)
                else w0)
               (verdict s)
  | _ => mkSystem w0 (verdict s)
  end.
Proof.
  unfold step. fold (typed f v (window s)). cbv zeta. destruct f; try reflexivity.
  - unfold oninput. rewrite passwordInput_oninput_run, value_of_typed, decide_True by done.
    by destruct (6 <=? length v)%nat.
  - destruct (truthy v); [|reflexivity]. cbn [validator].
    by destruct (validateConfirmPassword _).
Qed.

Lemma step_Submit s :
  step Submit s =
  mkSystem (if fst (validateForm (window s))
            then snd (announce (after_all (window s)))
            else after_all (window s))
           (Fields (Some (fst (validator FullName (window s))))
                   (Some (fst (validator Email (window s))))
                   (Some (fst (validator Password (window s))))
                   (Some (fst (validator ConfirmPassword (window s))))
                   (Some (fst (validator Phone (window s))))).
Proof.
  rewrite validateForm_run. cbn [fst]. unfold step, after_all, announce.
  set (d := window s).
  set (d1 := snd (validator FullName d)).
  set (d2 := snd (validator Email d1)).
  set (d3 := snd (validator Password d2)).
  set (d4 := snd (validator ConfirmPassword d3)).
  assert (V1 : forall f, value_of f d1 = value_of f d) by (intros f; apply validator_value).
  assert (V2 : forall f, value_of f d2 = value_of f d).
  { intros f. unfold d2. by rewrite validator_value. }
  assert (V3 : forall f, value_of f d3 = value_of f d).
  { intros f. unfold d3. by rewrite validator_value. }
  assert (V4 : forall f, value_of f d4 = value_of f d).
  { intros f. unfold d4. by rewrite validator_value. }
  rewrite <- (validator_fst_values Email d1 d V1), <- (validator_fst_values Password d2 d V2),
    <- (validator_fst_values ConfirmPassword d3 d V3), <- (validator_fst_values Phone d4 d V4).
  subst d1 d2 d3 d4. cbn [validator].
  destruct (validateFullName d) as [b1 d1]. cbn [fst snd].
  destruct (validateEmail d1) as [b2 d2]. cbn [fst snd].
  destruct (validatePassword d2) as [b3 d3]. cbn [fst snd].
  destruct (validateConfirmPassword d3) as [b4 d4]. cbn [fst snd].
  by destruct (validatePhone d4) as [b5 d5].
Qed.

(** The verdict history is an observer: the page state of [step] is the one
    the listener itself produces. *)
Lemma step_window e s : window (step e s) = snd (handle e (window s)).
Proof.
  destruct e as [f v|f| |i].
  - rewrite step_UserInput.
    change (snd (handle (UserInput f v) (window s)))
      with (snd (oninput f (typed f v (window s)))).
    cbv zeta. destruct f; try reflexivity.
    + unfold oninput. rewrite passwordInput_oninput_run, value_of_typed, decide_True by done.
      by destruct (6 <=? length v)%nat.
    + unfold oninput. rewrite confirmPasswordInput_oninput_run, value_of_typed, decide_True by done.
      by destruct (truthy v).
  - rewrite step_Blur. cbn [window handle]. unfold onblur, bind.
    by destruct (validator f (window s)).
  - rewrite step_Submit. cbn [window handle]. unfold signupForm_onsubmit, bind at 1.
    rewrite validateForm_run. cbn [fst]. by destruct (_ && _).
  - unfold step. destruct (timers (window s) !! i) as [[[] ?]|]; reflexivity.
Qed.

Lemma typed_classes f g v d : input_classes g (typed f v d) = input_classes g d.
Proof. unfold input_classes. rewrite typed_element. by case_decide. Qed.

Lemma typed_slot f g v d : slot_text g (typed f v d) = slot_text g d.
Proof. unfold slot_text. rewrite typed_element. by case_decide. Qed.

(** A validator run on a state [w0] that shows what [s] shows. *)
Lemma field_change_validated f g s s' w0 :
  (forall h, input_classes h w0 = input_classes h (window s)) ->
  (forall h, slot_text h w0 = slot_text h (window s)) ->
  window s' = snd (validator g w0) ->
  verdict s' = set_field g (Some (fst (validator g w0))) (verdict s) ->
  field_change f s s'.
Proof.
  intros Hc Ht Hw Hv.
  assert (Hc' : input_classes f (window s') =
                classList (settled g (failure g w0) (Input f) (element (Input f) w0))).
  { unfold input_classes. by rewrite Hw, validator_element. }
  assert (Ht' : slot_text f (window s') =
                textContent (settled g (failure g w0) (ErrorSlot f) (element (ErrorSlot f) w0))).
  { unfold slot_text. by rewrite Hw, validator_element. }
  assert (Hv' : at_field f (verdict s') =
                if decide (g = f) then Some (bool_decide (failure g w0 = None))
                else at_field f (verdict s)).
  { by rewrite Hv, at_set_field, validator_fst. }
  unfold settled in Hc', Ht'.
  destruct (decide (g = f)) as [->|Hne].
  - destruct (failure f w0) as [message|] eqn:Hf.
    + apply (change_failed f s s' message).
      * by apply (failure_nonempty f w0).
      * rewrite Hc'. simpl. by rewrite <- Hc.
      * by rewrite Ht'.
      * by rewrite Hv'.
    + apply change_passed.
      * rewrite Hc'. simpl. by rewrite <- Hc.
      * by rewrite Ht'.
      * by rewrite Hv'.
  - apply change_none.
    + rewrite Hc'. destruct (failure g w0); by rewrite <- Hc.
    + rewrite Ht'. destruct (failure g w0); by rewrite <- Ht.
    + done.
Qed.

(** Every event changes what a field shows in one of the five ways. *)
Lemma step_field_change e s f : field_change f s (step e s).
Proof.
  destruct e as [g v|g| |i].
  - rewrite step_UserInput. cbv zeta.
    assert (Hnone : field_change f s (mkSystem (typed g v (window s)) (verdict s))).
    { apply change_none; cbn [window verdict];
        [apply typed_classes | apply typed_slot | done]. }
    destruct g; try exact Hnone.
    + destruct (6 <=? length v)%nat; [|exact Hnone].
      destruct (decide (f = Password)) as [->|Hne].
      * by apply change_shortcut.
      * apply change_none; cbn [window verdict]; try done;
          unfold input_classes, slot_text, passwordInput, passwordError;
          rewrite clearError_element, typed_element; unfold cleared;
          repeat case_decide; first [done | congruence].
    + destruct (truthy v); [|exact Hnone].
      apply (field_change_validated f ConfirmPassword s _
               (typed ConfirmPassword v (window s)));
        first [done | intros h; apply typed_classes | intros h; apply typed_slot].
  - rewrite step_Blur. by apply (field_change_validated f g s _ (window s)).
  - rewrite step_Submit.
    set (w := window s).
    assert (Hel : forall n, n <> SuccessMessage ->
              element n (if fst (validateForm w) then snd (announce (after_all w))
                         else after_all w) = element n (after_all w)).
    { intros n Hn. destruct (fst (validateForm w)); [by apply announce_element | done]. }
    assert (Hc' : input_classes f (if fst (validateForm w) then snd (announce (after_all w))
                                   else after_all w) =
                  classList (settled f (failure f w) (Input f) (element (Input f) w))).
    { unfold input_classes. rewrite Hel, (after_all_own f) by auto.
      by rewrite validator_element. }
    assert (Ht' : slot_text f (if fst (validateForm w) then snd (announce (after_all w))
                               else after_all w) =
                  textContent (settled f (failure f w) (ErrorSlot f) (element (ErrorSlot f) w))).
    { unfold slot_text. rewrite Hel, (after_all_own f) by auto.
      by rewrite validator_element. }
    assert (Hv' : at_field f (Fields (Some (fst (validator FullName w)))
                     (Some (fst (validator Email w))) (Some (fst (validator Password w)))
                     (Some (fst (validator ConfirmPassword w)))
                     (Some (fst (validator Phone w)))) =
                  Some (bool_decide (failure f w = None))).
    { rewrite <- validator_fst. by destruct f. }
    unfold settled in Hc', Ht'.
    rewrite !decide_True in Hc' by done. rewrite !decide_True in Ht' by done.
    destruct (failure f w) as [message|] eqn:Hf.
    + apply (change_failed f s _ message); cbn [window verdict]; try done.
      * by apply (failure_nonempty f w).
      * rewrite Ht'. by rewrite ?decide_True.
    + by apply change_passed.
  - unfold step. cbn [handle].
    destruct (timers (window s) !! i) as [[[] ms]|] eqn:Hi; cbn [window verdict snd].
    + by apply change_none.
    + apply change_reset; cbn [window verdict];
        first [ by destruct f
              | unfold input_classes, slot_text, bind, drop_timer, run_callback;
                by rewrite resetForm_element ].
    + by apply change_none.
Qed.

End SystemFacts.

(** ** The invariants along every run *)

Section Invariants.

Implicit Types (s : System) (e : event) (es : list event) (f : field).

Lemma run_cons e es s : run (e :: es) s = run es (step e s).
Proof. reflexivity. Qed.

Lemma styles_differ : "error-input" <> "success-input".
Proof. discriminate. Qed.

Lemma exclusive_styling_step e s :
  exclusive_styling (window s) -> exclusive_styling (window (step e s)).
Proof.
  intros H f. specialize (H f). pose proof styles_differ.
  destruct (step_field_change e s f) as [Hc _ _|m _ Hc _ _|Hc _ _|_ Hc _ _|Hc _ _];
    rewrite Hc; set_solver.
Qed.

Lemma error_state_sound_step e s : error_state_sound s -> error_state_sound (step e s).
Proof.
  intros H f. destruct (H f) as (Hab & Hac & Hca). pose proof styles_differ.
  destruct (step_field_change e s f)
    as [Hc Ht Hv|m Hm Hc Ht Hv|Hc Ht Hv|Hp Hc Ht Hv|Hc Ht Hv];
    rewrite Hc, Ht, Hv.
  - done.
  - repeat split; try done; intros; set_solver.
  - repeat split; try done; set_solver.
  - repeat split; try done; set_solver.
  - repeat split; try done; set_solver.
Qed.

End Invariants.

(** C7. Along every run of the page, from a state in which no input carries
    both [error-input] and [success-input], no input ever carries both. *)
Theorem exclusive_styling_invariant (es : list event) (s : System) :
  exclusive_styling (window s) -> exclusive_styling (window (run es s)).
Proof.
  revert s. induction es as [|e es IH]; intros s H; [done|].
  rewrite run_cons. apply IH. by apply exclusive_styling_step.
Qed.

Lemma exclusive_styling_after_typing :
  exclusive_styling
    (window (run [UserInput Password (lit "abc"); Blur Password;
                  UserInput Password (lit "abcdef"); Submit; Timeout 0] fresh)).
Proof.
  apply exclusive_styling_invariant.
  intros f [H _]. destruct f; by apply not_elem_of_empty in H.
Defined.

(** C3 as stated fails.  On a fresh page the user types ["abc"] into the
    password input, leaves it (the validator fails), then types ["abcdef"]:
    the shortcut of the ['input'] listener empties the slot and removes
    [error-input], the container keeps [error], and the last verdict of the
    password validator is still a failure. *)
Lemma error_state_consistent_fails :
  let s := run [UserInput Password (lit "abc"); Blur Password;
                UserInput Password (lit "abcdef")] fresh in
  error_state_consistent fresh /\
  slot_text Password (window s) = [] /\
  ("error-input" ∉ input_classes Password (window s)) /\
  "error" ∈ group_classes Password (window s) /\
  at_field Password (verdict s) = Some false /\
  ~ error_state_consistent s /\
  ~ container_state_consistent s.
Proof.
  cbv zeta.
  set (s := run _ fresh).
  assert (Ht : slot_text Password (window s) = []) by reflexivity.
  assert (Hi : "error-input" ∉ input_classes Password (window s)).
  { vm_compute. intros H. discriminate H. }
  assert (Hg : "error" ∈ group_classes Password (window s)).
  { vm_compute. reflexivity. }
  assert (Hv : at_field Password (verdict s) = Some false) by reflexivity.
  repeat apply conj; try done.
  - intros f. split; split; intros H.
    + destruct f; by destruct H.
    + destruct f; by apply not_elem_of_empty in H.
    + destruct f; by apply not_elem_of_empty in H.
    + by destruct f.
  - intros H. destruct (H Password) as [_ [_ Hback]]. by apply Hi, Hback.
  - intros H. destruct (H Password) as [[_ Hback] _]. by apply (Hback Hg).
Qed.

(** C3, amended. Along every run of the page, from a state where it holds:
    for every field the error slot is non-empty iff the input carries
    [error-input]; if the slot is non-empty the field's last verdict was a
    failure; and for every field other than the password a last verdict of
    failure shows as a non-empty slot. *)
Theorem error_state_sound_invariant (es : list event) (s : System) :
  error_state_sound s -> error_state_sound (run es s).
Proof.
  revert s. induction es as [|e es IH]; intros s H; [done|].
  rewrite run_cons. apply IH. by apply error_state_sound_step.
Qed.

Lemma error_state_sound_after_shortcut :
  error_state_sound
    (run [UserInput Password (lit "abc"); Blur Password;
          UserInput Password (lit "abcdef")] fresh).
Proof.
  apply error_state_sound_invariant.
  intros f. split; [split|split]; intros H.
  - destruct f; by destruct H.
  - destruct f; by apply not_elem_of_empty in H.
  - destruct f; by destruct H.
  - intros Hv. by destruct f.
Defined.

(** * Further properties of the script *)

(** ** Trimming *)

Section TrimFacts.

Implicit Types (s t : list N) (c : N).

Lemma trimStart_head s c t : trimStart s = c :: t -> is_white_space c = false.
Proof.
  induction s as [|a s IH]; simpl; [discriminate|].
  destruct (is_white_space a) eqn:E; [exact IH|]. by intros [= <- _].
Qed.

Lemma trim_nil_iff s : trim s = [] <-> all_space s.
Proof.
  unfold trim, trimEnd, all_space. split.
  - intros H. apply (f_equal reverse) in H. rewrite reverse_involutive in H.
    change (reverse []) with (@nil N) in H.
    apply trimStart_nil_inv in H. rewrite Forall_reverse in H.
    destruct (trimStart s) as [|c t] eqn:E; [by apply trimStart_nil_inv|].
    apply trimStart_head in E. apply Forall_cons in H as [H _]. congruence.
  - intros H. by rewrite (trimStart_all_space s H).
Qed.

Lemma truthy_true s : truthy s = true <-> s <> [].
Proof. unfold truthy. rewrite negb_true_iff. apply not_false. Qed.

Lemma truthy_length s : truthy s = true <-> (1 <= length s)%nat.
Proof. rewrite truthy_true. destruct s; simpl; split; (done || lia). Qed.

End TrimFacts.

(** ** The single validators *)

(** X1. [validateFullName] accepts exactly the values whose trimmed text has
    at least three code units (the emptiness rule adds nothing to the
    verdict, it only picks the message). *)
Theorem validateFullName_verdict (d : Window) :
  fst (validateFullName d) = true <-> (3 <= length (trim (value_of FullName d)))%nat.
Proof.
  change validateFullName with (validator FullName).
  rewrite validator_fst, bool_decide_eq_true.
  unfold failure, checked_text, rules_of, fullNameRules, first_failing.
  destruct (truthy _) eqn:Et.
  - destruct (3 <=? _)%nat eqn:El.
    + apply Nat.leb_le in El. done.
    + apply Nat.leb_gt in El. split; [discriminate | lia].
  - assert (~ (1 <= length (trim (value_of FullName d)))%nat).
    { rewrite <- truthy_length. congruence. }
    split; [discriminate | lia].
Qed.

(** X2. A full name made of white space only, however long, is reported as
    missing: [validateFullName] returns false and shows "Full name is
    required", not the length message. *)
Theorem validateFullName_blank (d : Window) :
  all_space (value_of FullName d) ->
  fst (validateFullName d) = false /\
  slot_text FullName (snd (validateFullName d)) = lit "Full name is required".
Proof.
  intros H. apply trim_nil_iff in H.
  change validateFullName with (validator FullName).
  rewrite validator_fst, validator_slot_text.
  unfold failure, checked_text, rules_of, fullNameRules, first_failing.
  by rewrite H.
Qed.

Lemma validateFullName_blank_spaces :
  let d := typed FullName (lit "     ") fresh_window in
  fst (validateFullName d) = false /\
  slot_text FullName (snd (validateFullName d)) = lit "Full name is required".
Proof.
  intros d. apply (validateFullName_blank d).
  unfold all_space. repeat constructor.
Defined.

Section EmailFacts.

Implicit Types (s : list N).

Lemma plain_no_at s : plain s -> count_occ N.eq_dec s 64 = 0%nat.
Proof.
  intros [_ H]. induction H as [|c s Hc _ IH]; [done|].
  rewrite count_occ_cons_neq; [done|].
  intros ->. discriminate Hc.
Qed.

Lemma plain_no_space s : plain s -> Forall (fun c => is_white_space c = false) s.
Proof.
  intros [_ H]. eapply Forall_impl; [exact H|].
  intros c Hc. unfold not_space_at in Hc.
  apply negb_true_iff, orb_false_iff in Hc. tauto.
Qed.

Lemma plain_length s : plain s -> (1 <= length s)%nat.
Proof. intros [H _]. destruct s; simpl; [done | lia]. Qed.

Lemma email_shape_rules s :
  email_shape s -> first_failing emailRules s = None.
Proof.
  intros Hs. assert (Ht := proj2 (test_emailRegex s) Hs).
  destruct Hs as (a & b & c & -> & Ha & Hb & Hc).
  unfold emailRules, first_failing. rewrite Ht.
  assert (Hne : truthy (a ++ [64] ++ b ++ [46] ++ c) = true).
  { apply truthy_true. destruct a; [by destruct Ha | done]. }
  rewrite Hne, !bool_decide_eq_true_2; [done | |].
  - rewrite !elem_of_app, !list_elem_of_singleton. auto.
  - rewrite !elem_of_app, !list_elem_of_singleton. auto.
Qed.

End EmailFacts.

(** X3. The verdict of [validateEmail] is the verdict of its pattern on the
    trimmed value: the emptiness, [@] and [.] rules that run first never
    change it, they only choose the message. *)
Theorem validateEmail_decided_by_pattern (d : Window) :
  fst (validateEmail d) = test emailRegex (trim (value_of Email d)).
Proof.
  change validateEmail with (validator Email). rewrite validator_fst.
  unfold failure, checked_text, rules_of.
  destruct (test emailRegex _) eqn:Et.
  - apply test_emailRegex in Et. by rewrite email_shape_rules.
  - apply bool_decide_eq_false_2.
    unfold emailRules, first_failing. rewrite Et.
    by repeat match goal with |- context [if ?b then _ else _] => destruct b end.
Qed.

(** X4. An email that [validateEmail] accepts has, once trimmed, exactly one
    [@], no white space anywhere and at least five code units. *)
Theorem validateEmail_accepts_only (d : Window) :
  fst (validateEmail d) = true ->
  count_occ N.eq_dec (trim (value_of Email d)) 64 = 1%nat /\
  Forall (fun c => is_white_space c = false) (trim (value_of Email d)) /\
  (5 <= length (trim (value_of Email d)))%nat.
Proof.
  change validateEmail with (validator Email). rewrite validator_fst, bool_decide_eq_true.
  unfold failure, checked_text, rules_of. intros H.
  assert (Ht : test emailRegex (trim (value_of Email d)) = true).
  { revert H. unfold emailRules, first_failing.
    by repeat match goal with |- context [if ?b then _ else _] => destruct b end. }
  apply test_emailRegex in Ht as (a & b & c & -> & Ha & Hb & Hc).
  repeat split.
  - rewrite !count_occ_app, (plain_no_at a), (plain_no_at b), (plain_no_at c) by done.
    reflexivity.
  - rewrite !Forall_app. repeat split; try by apply plain_no_space.
    + by repeat constructor.
    + by repeat constructor.
  - rewrite !length_app. simpl.
    pose proof (plain_length a Ha). pose proof (plain_length b Hb).
    pose proof (plain_length c Hc). lia.
Qed.

Lemma validateEmail_accepts_sample :
  let d := typed Email (lit "  jo@ex.org ") fresh_window in
  count_occ N.eq_dec (trim (value_of Email d)) 64 = 1%nat /\
  Forall (fun c => is_white_space c = false) (trim (value_of Email d)) /\
  (5 <= length (trim (value_of Email d)))%nat.
Proof.
  intros d. apply (validateEmail_accepts_only d). reflexivity.
Defined.

(** X5. [customPhoneValidation] of the reference file accepts exactly the
    strings of ten or more ASCII digits, and [validatePhone] returns what
    [customPhoneValidation] returns on the trimmed value. *)
Theorem validatePhone_agrees_customPhoneValidation :
  (forall phone,
     customPhoneValidation phone = true <->
     all_digits phone /\ (10 <= length phone)%nat) /\
  (forall d, fst (validatePhone d) = customPhoneValidation (trim (value_of Phone d))).
Proof.
  split.
  - intros phone. unfold customPhoneValidation.
    rewrite andb_true_iff, Nat.leb_le, test_phoneRegex. tauto.
  - intros d. change validatePhone with (validator Phone). rewrite validator_fst.
    unfold failure, checked_text, rules_of, phoneRules, first_failing, customPhoneValidation.
    set (t := trim _).
    destruct (test phoneRegex t) eqn:Et.
    + assert (Hne : truthy t = true).
      { apply truthy_true. apply test_phoneRegex in Et. by destruct Et. }
      rewrite Hne, andb_true_r. by destruct (10 <=? length t)%nat.
    + rewrite andb_false_r. by destruct (truthy t).
Qed.

(** ** [checkPasswordStrength] *)

Section StrengthFacts.

Implicit Types (s t : list N) (p : N -> bool).

Lemma matches_at_start_Never s : matches_at_start Never s = false.
Proof. induction s as [|c s IH]; simpl; [done | exact IH]. Qed.

Lemma matches_at_start_Empty s : matches_at_start Empty s = true.
Proof. by destruct s. Qed.

(** Searching for one character class is looking for one such character. *)
Lemma search_class p s : search (Class p) s = true <-> Exists (fun c => p c = true) s.
Proof.
  induction s as [|c s IH]; simpl.
  - split; [discriminate | inversion 1].
  - rewrite Exists_cons, <- IH. destruct (p c).
    + rewrite matches_at_start_Empty. simpl. tauto.
    + rewrite matches_at_start_Never. simpl. split; [auto | intros [?|?]; done].
Qed.

Lemma search_class_app p s t :
  search (Class p) s = true -> search (Class p) (s ++ t) = true.
Proof. rewrite !search_class, Exists_app. auto. Qed.

Lemma score_sum s :
  score (checkPasswordStrength s) =
  (Nat.b2n (6 <=? length s) + Nat.b2n (8 <=? length s)
   + Nat.b2n (search (Class is_upper) s) + Nat.b2n (search (Class is_digit) s)
   + Nat.b2n (search (Class is_special) s))%nat.
Proof.
  unfold checkPasswordStrength. cbv zeta. cbn [score].
  destruct (6 <=? length s)%nat, (8 <=? length s)%nat, (search (Class is_upper) s),
    (search (Class is_digit) s), (search (Class is_special) s); reflexivity.
Qed.

Lemma b2n_mono (a b : bool) : (a = true -> b = true) -> (Nat.b2n a <= Nat.b2n b)%nat.
Proof. destruct a, b; simpl; intros H; first [lia | by specialize (H eq_refl)]. Qed.

Lemma not_special_not_upper_digit c :
  is_upper c = false -> is_digit c = false -> is_special c = false -> is_lower c = true.
Proof.
  unfold is_special. intros -> ->. rewrite orb_false_r. simpl.
  by destruct (is_lower c).
Qed.

End StrengthFacts.

(** X6. [checkPasswordStrength] returns a score between 0 and 5, and its
    level is read off the score alone: Weak up to 2, Fair at 3, Good at 4,
    Strong at 5. *)
Theorem checkPasswordStrength_level (password : list N) :
  (score (checkPasswordStrength password) <= 5)%nat /\
  (level (checkPasswordStrength password) = "Weak" <->
     (score (checkPasswordStrength password) <= 2)%nat) /\
  (level (checkPasswordStrength password) = "Fair" <->
     score (checkPasswordStrength password) = 3%nat) /\
  (level (checkPasswordStrength password) = "Good" <->
     score (checkPasswordStrength password) = 4%nat) /\
  (level (checkPasswordStrength password) = "Strong" <->
     score (checkPasswordStrength password) = 5%nat).
Proof.
  unfold checkPasswordStrength. cbv zeta. cbn [score level].
  destruct (6 <=? length password)%nat, (8 <=? length password)%nat,
    (search (Class is_upper) password), (search (Class is_digit) password),
    (search (Class is_special) password); simpl;
    repeat split; intros; first [lia | discriminate | reflexivity].
Qed.

(** X7. The level is Strong exactly for the passwords of eight or more code
    units that contain an upper-case letter, a digit and a character that is
    neither a letter nor a digit. *)
Theorem checkPasswordStrength_strong (password : list N) :
  level (checkPasswordStrength password) = "Strong" <->
  (8 <= length password)%nat /\
  Exists (fun c => is_upper c = true) password /\
  Exists (fun c => is_digit c = true) password /\
  Exists (fun c => is_special c = true) password.
Proof.
  rewrite <- !search_class, <- Nat.leb_le.
  unfold checkPasswordStrength. cbv zeta. cbn [level].
  destruct (Nat.leb_spec 6 (length password)) as [H6|H6];
    destruct (Nat.leb_spec 8 (length password)) as [H8|H8]; try lia;
    destruct (search (Class is_upper) password), (search (Class is_digit) password),
      (search (Class is_special) password); simpl;
    split; first [discriminate | reflexivity | tauto | intros (? & ? & ? & ?); discriminate].
Qed.

(** X8. Appending characters to a password never lowers its score. *)
Theorem checkPasswordStrength_monotone (password more : list N) :
  (score (checkPasswordStrength password) <=
   score (checkPasswordStrength (password ++ more)))%nat.
Proof.
  rewrite !score_sum.
  assert (L6 : (Nat.b2n (6 <=? length password) <=
                Nat.b2n (6 <=? length (password ++ more)))%nat).
  { apply b2n_mono. rewrite !Nat.leb_le, length_app. lia. }
  assert (L8 : (Nat.b2n (8 <=? length password) <=
                Nat.b2n (8 <=? length (password ++ more)))%nat).
  { apply b2n_mono. rewrite !Nat.leb_le, length_app. lia. }
  pose proof (b2n_mono _ _ (search_class_app is_upper password more)).
  pose proof (b2n_mono _ _ (search_class_app is_digit password more)).
  pose proof (b2n_mono _ _ (search_class_app is_special password more)).
  lia.
Qed.

(** X9. The score is 0 exactly for the passwords shorter than six code units
    that consist of lower-case ASCII letters only (the empty password
    included). *)
Theorem checkPasswordStrength_zero (password : list N) :
  score (checkPasswordStrength password) = 0%nat <->
  (length password < 6)%nat /\ Forall (fun c => is_lower c = true) password.
Proof.
  rewrite score_sum. split.
  - intros H.
    destruct (Nat.leb_spec 6 (length password)) as [H6|H6]; [simpl in H; lia|].
    destruct (search (Class is_upper) password) eqn:Eu; [simpl in H; lia|].
    destruct (search (Class is_digit) password) eqn:Ed; [simpl in H; lia|].
    destruct (search (Class is_special) password) eqn:Es; [simpl in H; lia|].
    split; [done|].
    apply Forall_forall. intros c Hc.
    apply not_special_not_upper_digit.
    + destruct (is_upper c) eqn:E; [|done].
      assert (search (Class is_upper) password = true); [|congruence].
      apply search_class, Exists_exists. eauto.
    + destruct (is_digit c) eqn:E; [|done].
      assert (search (Class is_digit) password = true); [|congruence].
      apply search_class, Exists_exists. eauto.
    + destruct (is_special c) eqn:E; [|done].
      assert (search (Class is_special) password = true); [|congruence].
      apply search_class, Exists_exists. eauto.
  - intros [Hlen Hlow].
    assert (Hno : forall p, (forall c, is_lower c = true -> p c = false) ->
                            search (Class p) password = false).
    { intros p Hp. apply not_true_iff_false. rewrite search_class, Exists_exists.
      intros (c & Hc & Hpc). rewrite Forall_forall in Hlow.
      rewrite (Hp c (Hlow c Hc)) in Hpc. discriminate. }
    assert (Hlt : forall c, is_lower c = true -> (97 <= c)%N /\ (c <= 122)%N).
    { intros c Hc. unfold is_lower in Hc.
      apply andb_true_iff in Hc as [?%N.leb_le ?%N.leb_le]. done. }
    rewrite (Hno is_upper), (Hno is_digit), (Hno is_special).
    + destruct (Nat.leb_spec 6 (length password)); [lia|].
      destruct (Nat.leb_spec 8 (length password)); [lia|]. reflexivity.
    + intros c Hc. unfold is_special. by rewrite Hc, orb_true_r.
    + intros c Hc. apply Hlt in Hc. unfold is_digit.
      apply andb_false_iff. right. apply N.leb_gt. lia.
    + intros c Hc. apply Hlt in Hc. unfold is_upper.
      apply andb_false_iff. right. apply N.leb_gt. lia.
Qed.

(** ** Verdicts and what is displayed *)

Section VerdictFacts.

Implicit Types (d : Window) (f : field) (n : node) (e : Element) (r : option (list N)).

Lemma validatePassword_fst d :
  fst (validator Password d) = (6 <=? length (value_of Password d))%nat.
Proof.
  rewrite validator_fst.
  unfold failure, checked_text, rules_of, passwordRules, first_failing.
  destruct (Nat.leb_spec 6 (length (value_of Password d))) as [H|H].
  - assert (Ht : truthy (value_of Password d) = true) by (apply truthy_length; lia).
    by rewrite Ht.
  - by destruct (truthy _).
Qed.

(** What each validator accepts, in terms of the typed values. *)
Lemma verdict_iff f d :
  fst (validator f d) = true <->
  match f with
  | FullName => (3 <= length (trim (value_of FullName d)))%nat
  | Email => email_shape (trim (value_of Email d))
  | Password => (6 <= length (value_of Password d))%nat
  | ConfirmPassword =>
      value_of ConfirmPassword d <> [] /\ value_of ConfirmPassword d = value_of Password d
  | Phone =>
      all_digits (trim (value_of Phone d)) /\ (10 <= length (trim (value_of Phone d)))%nat
  end.
Proof.
  destruct f.
  - rewrite validator_fst, bool_decide_eq_true.
    unfold failure, checked_text, rules_of, fullNameRules, first_failing.
    destruct (Nat.leb_spec 3 (length (trim (value_of FullName d)))) as [H|H].
    + assert (Ht : truthy (trim (value_of FullName d)) = true) by (apply truthy_length; lia).
      by rewrite Ht.
    + destruct (truthy _); split; first [discriminate | lia].
  - rewrite validator_fst, bool_decide_eq_true, <- test_emailRegex.
    unfold failure, checked_text, rules_of. split.
    + unfold emailRules, first_failing.
      by repeat match goal with |- context [if ?b then _ else _] => destruct b end.
    + intros H. by apply email_shape_rules, test_emailRegex.
  - by rewrite validatePassword_fst, Nat.leb_le.
  - rewrite validator_fst, bool_decide_eq_true.
    unfold failure, checked_text, rules_of, confirmPasswordRules, first_failing.
    destruct (truthy (value_of ConfirmPassword d)) eqn:Et.
    + apply truthy_true in Et. case_bool_decide; split; try done; intros [_ ?]; done.
    + assert (value_of ConfirmPassword d = []).
      { destruct (value_of ConfirmPassword d); [done | discriminate Et]. }
      split; [discriminate | intros [? _]; done].
  - rewrite validator_fst, bool_decide_eq_true, <- test_phoneRegex, <- Nat.leb_le.
    unfold failure, checked_text, rules_of, phoneRules, first_failing.
    set (t := trim _).
    destruct (test phoneRegex t) eqn:Et.
    + assert (Hne : truthy t = true).
      { apply truthy_true. apply test_phoneRegex in Et. by destruct Et. }
      rewrite Hne. destruct (10 <=? length t)%nat; split; try done; intros [_ ?]; done.
    + destruct (truthy t); split; try done; intros [? _]; done.
Qed.

Lemma settled_idem f r n e : settled f r n (settled f r n e) = settled f r n e.
Proof.
  destruct n as [g|g|g|], r as [m|]; simpl; try done;
    case_decide; try done; unfold with_classList; simpl; f_equal; set_solver.
Qed.

End VerdictFacts.

(** X10. The ['input'] listener of the password input clears the error
    exactly when [validatePassword] would accept the typed value, and then
    leaves the input and the error slot as [validatePassword] would; in the
    other case it changes nothing beyond the typed value, so typing never
    brings up a password error and never removes one before six characters. *)
Theorem password_shortcut_agrees (d : Window) (v : list N) :
  if fst (validatePassword (typed Password v d))
  then
    element (Input Password) (snd (handle (UserInput Password v) d)) =
      element (Input Password) (snd (validatePassword (typed Password v d))) /\
    element (ErrorSlot Password) (snd (handle (UserInput Password v) d)) =
      element (ErrorSlot Password) (snd (validatePassword (typed Password v d)))
  else snd (handle (UserInput Password v) d) = typed Password v d.
Proof.
  change (snd (handle (UserInput Password v) d))
    with (snd (passwordInput_oninput (typed Password v d))).
  rewrite passwordInput_oninput_run.
  change validatePassword with (validator Password).
  destruct (fst (validator Password (typed Password v d))) eqn:Ev.
  - rewrite validator_fst in Ev. apply bool_decide_eq_true in Ev.
    rewrite !validator_element, Ev.
    assert (Hlen : (6 <=? length (value_of Password (typed Password v d)))%nat = true).
    { rewrite <- validatePassword_fst, validator_fst. by apply bool_decide_eq_true. }
    rewrite Hlen. unfold passwordInput, passwordError.
    rewrite !clearError_element. unfold cleared, settled.
    by rewrite !decide_True.
  - rewrite validatePassword_fst in Ev. by rewrite Ev.
Qed.

(** X11. Running a validator a second time in a row changes nothing: the
    verdict is the same and the page state stays as the first run left it. *)
Theorem validator_idempotent (f : field) (d : Window) :
  validator f (snd (validator f d)) = validator f d.
Proof.
  rewrite (surjective_pairing (validator f (snd (validator f d)))).
  rewrite (surjective_pairing (validator f d)) at 3.
  f_equal.
  - rewrite !validator_fst. by rewrite failure_after_validator.
  - apply window_ext.
    + intros n. rewrite !validator_element, failure_after_validator.
      apply settled_idem.
    + rewrite (validator_settle f (snd (validator f d))), settle_timers. done.
Qed.

(** X12. Right after a validator has run, every indicator of its field tells
    the verdict: the validator returned true iff the slot is empty, iff the
    slot is hidden, iff the input lacks [error-input], iff the input has
    [success-input], iff the container lacks [error]. *)
Theorem validator_display_agrees (f : field) (d : Window) :
  (fst (validator f d) = true <-> slot_text f (snd (validator f d)) = []) /\
  (fst (validator f d) = true <-> "show" ∉ slot_classes f (snd (validator f d))) /\
  (fst (validator f d) = true <-> "error-input" ∉ input_classes f (snd (validator f d))) /\
  (fst (validator f d) = true <-> "success-input" ∈ input_classes f (snd (validator f d))) /\
  (fst (validator f d) = true <-> "error" ∉ group_classes f (snd (validator f d))).
Proof.
  unfold slot_text, slot_classes, input_classes, group_classes.
  rewrite validator_fst, !validator_element, bool_decide_eq_true.
  pose proof (failure_nonempty f d) as Hm. pose proof styles_differ.
  unfold settled.
  destruct (failure f d) as [m|]; rewrite !decide_True by done; simpl.
  - specialize (Hm m eq_refl).
    repeat split; intros; first [done | set_solver].
  - repeat split; intros; first [done | set_solver].
Qed.

(** X13. [validateForm] returns true exactly when it leaves no message in
    any of the five error slots. *)
Theorem validateForm_true_iff_no_message (d : Window) :
  fst (validateForm d) = true <-> forall f, slot_text f (snd (validateForm d)) = [].
Proof.
  rewrite validateForm_run. cbn [fst snd].
  assert (Hs : forall f, slot_text f (after_all d) = default [] (failure f d)).
  { intros f. unfold slot_text. rewrite (after_all_own f) by auto.
    apply validator_slot_text. }
  assert (Hv : forall f, fst (validator f d) = true <-> slot_text f (after_all d) = []).
  { intros f. rewrite Hs, validator_fst, bool_decide_eq_true.
    pose proof (failure_nonempty f d) as Hm.
    destruct (failure f d) as [m|]; simpl; [|done].
    specialize (Hm m eq_refl). split; [discriminate | done]. }
  rewrite !andb_true_iff, !Hv. split.
  - intros ((((H1 & H2) & H3) & H4) & H5) f. by destruct f.
  - intros H. repeat split; apply H.
Qed.

(** X14. [validateForm] accepts exactly the pages whose five values satisfy:
    trimmed name of three or more code units, trimmed email of the shape
    [a@b.c], password of six or more code units, confirm value equal to the
    password, trimmed phone of ten or more digits. *)
Theorem validateForm_accepts (d : Window) :
  fst (validateForm d) = true <-> form_valid d.
Proof.
  rewrite validateForm_run. cbn [fst].
  rewrite !andb_true_iff, (verdict_iff FullName), (verdict_iff Email),
    (verdict_iff Password), (verdict_iff ConfirmPassword), (verdict_iff Phone).
  unfold form_valid. split.
  - intros ((((H1 & H2) & H3) & [H4 H4']) & [H5 H5']). done.
  - intros (H1 & H2 & H3 & H4 & H5 & H6).
    assert (Hne : value_of ConfirmPassword d <> []).
    { rewrite H4. intros E. rewrite E in H3. simpl in H3. lia. }
    tauto.
Qed.

(** ** Submitting, the banner and the timers *)

Section SubmitFacts.

Implicit Types (d : Window) (f g : field) (n : node) (e : Element).

Lemma after_all_value g d : value_of g (after_all d) = value_of g d.
Proof. unfold after_all. cbv zeta. by rewrite !validator_value. Qed.

Lemma validator_timers f d : timers (snd (validator f d)) = timers d.
Proof. by rewrite validator_settle, settle_timers. Qed.

Lemma after_all_timers d : timers (after_all d) = timers d.
Proof. unfold after_all. cbv zeta. by rewrite !validator_timers. Qed.

Lemma after_all_banner d : element SuccessMessage (after_all d) = element SuccessMessage d.
Proof.
  rewrite after_all_element. unfold settled.
  by repeat match goal with |- context [failure ?g d] => destruct (failure g d) end.
Qed.

Lemma signupForm_onsubmit_run d :
  snd (signupForm_onsubmit d) =
  if fst (validateForm d) then snd (announce (after_all d)) else after_all d.
Proof.
  unfold signupForm_onsubmit, bind at 1. rewrite validateForm_run. cbn [fst].
  by destruct (_ && _).
Qed.

Lemma announce_timers d :
  timers (snd (announce d)) =
  timers d ++ [(HideSuccessMessage, 5000); (ResetFormLater, 2000)].
Proof. unfold announce, showSuccessMessage, bind, setTimeout. simpl. by rewrite <- app_assoc. Qed.

Lemma announce_banner d :
  classList (element SuccessMessage (snd (announce d))) =
  {["show"]} ∪ classList (element SuccessMessage d).
Proof. reflexivity. Qed.

Lemma run_callback_banner cb d :
  "show" ∉ classList (element SuccessMessage (snd (run_callback cb d))).
Proof.
  destruct cb; cbn [run_callback].
  - unfold classList_remove, modify, successMessage. cbn [snd].
    rewrite element_store_eq. cbn [classList with_classList]. set_solver.
  - rewrite resetForm_element. cbn [reset_element classList with_classList]. set_solver.
Qed.

Lemma drop_timer_element i n d : element n (snd (drop_timer i d)) = element n d.
Proof. by destruct n. Qed.

Lemma reset_after_settled f r n e :
  reset_element n (settled f r n e) = reset_element n e.
Proof.
  destruct n as [g|g|g|], r as [m|]; simpl; try done;
    case_decide; try done; unfold with_classList; simpl; f_equal; set_solver.
Qed.

End SubmitFacts.

(** X15. The ['submit'] listener keeps every typed value.  When [validateForm]
    accepts it shows the banner and queues the hide timer (5000 ms) and then
    the reset timer (2000 ms) behind the timers already pending, none of
    which it cancels; when [validateForm] rejects it leaves banner and timers
    as they were. *)
Theorem signupForm_onsubmit_effect (d : Window) :
  (forall f, value_of f (snd (signupForm_onsubmit d)) = value_of f d) /\
  (if fst (validateForm d)
   then banner_shown (snd (signupForm_onsubmit d)) /\
        timers (snd (signupForm_onsubmit d)) =
          timers d ++ [(HideSuccessMessage, 5000); (ResetFormLater, 2000)]
   else element SuccessMessage (snd (signupForm_onsubmit d)) = element SuccessMessage d /\
        timers (snd (signupForm_onsubmit d)) = timers d).
Proof.
  rewrite signupForm_onsubmit_run. split.
  - intros f. destruct (fst (validateForm d)).
    + unfold value_of. rewrite announce_element by done. apply after_all_value.
    + apply after_all_value.
  - destruct (fst (validateForm d)).
    + split.
      * unfold banner_shown. rewrite announce_banner.
        apply elem_of_union_l. by apply elem_of_singleton.
      * by rewrite announce_timers, after_all_timers.
    + split; [apply after_all_banner | apply after_all_timers].
Qed.

(** X16. [resetForm] absorbs what validation displayed: resetting after any
    validator, or after [validateForm], gives the page state that resetting
    straight away gives. *)
Theorem resetForm_absorbs_validation :
  (forall f d, snd (resetForm (snd (validator f d))) = snd (resetForm d)) /\
  (forall d, snd (resetForm (snd (validateForm d))) = snd (resetForm d)).
Proof.
  assert (Hone : forall f d, snd (resetForm (snd (validator f d))) = snd (resetForm d)).
  { intros f d. apply window_ext.
    - intros n. rewrite !resetForm_element, validator_element. apply reset_after_settled.
    - by rewrite !resetForm_timers, validator_timers. }
  split; [exact Hone|].
  intros d. rewrite validateForm_run. cbn [snd]. unfold after_all. cbv zeta.
  by rewrite !Hone.
Qed.

(** X17. When a pending reset timer fires, every input value and every error
    slot is emptied, whatever was typed or flagged since the submit, the
    banner is hidden, and exactly that timer leaves the queue. *)
Theorem reset_timer_wipes (d : Window) (i : nat) (ms : N) :
  timers d !! i = Some (ResetFormLater, ms) ->
  (forall f, value_of f (snd (handle (Timeout i) d)) = [] /\
             slot_text f (snd (handle (Timeout i) d)) = []) /\
  ~ banner_shown (snd (handle (Timeout i) d)) /\
  timers (snd (handle (Timeout i) d)) = delete i (timers d).
Proof.
  intros Hi. cbn [handle]. rewrite Hi. unfold bind, drop_timer, run_callback.
  repeat split.
  - unfold value_of. by rewrite resetForm_element.
  - unfold slot_text. by rewrite resetForm_element.
  - unfold banner_shown. rewrite resetForm_element. simpl. set_solver.
Qed.

Lemma reset_timer_wipes_later_typing :
  let d := typed FullName (lit "typed after the submit")
             (snd (setTimeout ResetFormLater 2000 fresh_window)) in
  (forall f, value_of f (snd (handle (Timeout 0) d)) = [] /\
             slot_text f (snd (handle (Timeout 0) d)) = []) /\
  ~ banner_shown (snd (handle (Timeout 0) d)) /\
  timers (snd (handle (Timeout 0) d)) = delete 0%nat (timers d).
Proof.
  intros d. apply (reset_timer_wipes d 0 2000). reflexivity.
Defined.
